(** * gelf-node: the encode / chunk / transmit pipeline of [src/gelf.ts]

    A shallow embedding of the [Gelf] class: the chunker ([getChunks],
    [createPackets], [maybeChunkMessage]), the normalizer ([sanitizeMsg]) and
    the transport ([send], [compress], [sendMessage] and the two event
    handlers), followed by the properties of the specification.

    Modelling conventions.
    - A [Buffer] is a list of bytes.  A JavaScript array of numbers is a list
      of integers; [Buffer.from] on such an array keeps the low 8 bits of
      every entry.
    - The value of [Math.random()] is a rational, and its product with a
      constant is rounded to a double before the floor is taken.
    - An object is the list of its own properties together with the object
      it inherits from, so that an own [__proto__] key of an event changes
      the prototype of the copy instead of being copied.
    - The loop of [getChunks] does not terminate for a step that is not
      positive, so it is run with fuel and [None] stands for divergence.
    - Callbacks are run at the point where the asynchronous operation that
      owns them completes; one message is processed at a time.  What the
      pipeline does to the outside world is recorded as a trace of events. *)

From Stdlib Require Import ZArith QArith Qround String Ascii List Bool Lia.
From Stdlib Require Import Init.Byte DecimalString.
Import ListNotations.
Open Scope Z_scope.

(** ** Bytes, numbers and buffers *)

Definition Buffer := list byte.

(** Reading [buf[k]] gives a number between 0 and 255. *)
Definition byte_to_number (b : byte) : Z := Z.of_N (Byte.to_N b).

(** The conversion [Buffer.from] applies to every entry of an array. *)
Definition toUint8 (n : Z) : byte :=
  match Byte.of_N (Z.to_N (n mod 256)) with
  | Some b => b
  | None => x00
  end.

Definition Buffer_from (arr : list Z) : Buffer := map toUint8 arr.

(** [Array.prototype.slice.call(o, start, end)] on an array-like [o]. *)
Definition js_slice {A : Type} (l : list A) (start end_ : Z) : list A :=
  let len := Z.of_nat (length l) in
  let k := if start <? 0 then Z.max (len + start) 0 else Z.min start len in
  let final := if end_ <? 0 then Z.max (len + end_) 0 else Z.min end_ len in
  firstn (Z.to_nat (final - k)) (skipn (Z.to_nat k) l).

(** ** Configuration *)

Record GelfOptions := {
  opt_graylogPort : option Z;
  opt_graylogHostname : option string;
  opt_connection : option string;
  opt_maxChunkSizeWan : option Z;
  opt_maxChunkSizeLan : option Z
}.

Record Config := {
  graylogPort : Z;
  graylogHostname : string;
  connection : string;
  maxChunkSizeWan : Z;
  maxChunkSizeLan : Z
}.

Definition defaults : Config := {|
  graylogPort := 12201;
  graylogHostname := "127.0.0.1";
  connection := "wan";
  maxChunkSizeWan := 1420;
  maxChunkSizeLan := 8154
|}.

Definition or_default {A : Type} (o : option A) (d : A) : A :=
  match o with Some a => a | None => d end.

(** [Object.assign({}, defaults, options)]: an option that is set wins. *)
Definition assign_options (d : Config) (o : GelfOptions) : Config := {|
  graylogPort := or_default (opt_graylogPort o) (graylogPort d);
  graylogHostname := or_default (opt_graylogHostname o) (graylogHostname d);
  connection := or_default (opt_connection o) (connection d);
  maxChunkSizeWan := or_default (opt_maxChunkSizeWan o) (maxChunkSizeWan d);
  maxChunkSizeLan := or_default (opt_maxChunkSizeLan o) (maxChunkSizeLan d)
|}.

(** ** The chunker *)

Definition GELF_MAGIC_NO : list Z := [0x1e; 0x0f].

(** The [for] loop of [getChunks]; [index] and [res] are its variables. *)
Fixpoint getChunks_loop (fuel : nat) (buf : Buffer) (chunkSize index : Z)
    (res : list (list Z)) : option (list (list Z)) :=
  match fuel with
  | O => None
  | S fuel' =>
      if index <? Z.of_nat (length buf)
      then getChunks_loop fuel' buf chunkSize (index + chunkSize)
             (res ++ [js_slice (map byte_to_number buf) index (index + chunkSize)])
      else Some res
  end.

Definition getChunks (fuel : nat) (buf : Buffer) (chunkSize : Z)
    : option (list (list Z)) :=
  getChunks_loop fuel buf chunkSize 0 [].

(** [chunks.forEach((chunk, index) => res[index] = f chunk index)]. *)
Fixpoint forEach_index {A B : Type} (f : A -> Z -> B) (index : Z) (l : list A)
    : list B :=
  match l with
  | [] => []
  | x :: rest => f x index :: forEach_index f (index + 1) rest
  end.

(** The arithmetic of doubles.  A product of two doubles is the exact
    product rounded to 53 significant bits, ties to the even neighbour.
    [binade n d] is the exponent [e] with [2^e <= n/d < 2^(e+1)]; the doubles
    of that binade are the multiples of [2^(e-52)].  (Exponents beyond the
    range of a double are not met here: the products below stay under 2^27,
    and under 2^-1022 they have floor 0 either way.) *)
Definition binade (n d : Z) : Z :=
  let s := Z.log2 n - Z.log2 d in
  if (if 0 <=? s then d * 2 ^ s <=? n else d <=? n * 2 ^ (- s)) then s else s - 1.

(** The integer nearest to [p / q], the even one on a tie. *)
Definition round_half_even (p q : Z) : Z :=
  let f := p / q in
  let r := p mod q in
  if 2 * r <? q then f
  else if q <? 2 * r then f + 1
  else if Z.even f then f else f + 1.

Definition round_to_double (x : Q) : Q :=
  let n := Z.abs (Qnum x) in
  let d := Z.pos (Qden x) in
  if n =? 0 then 0%Q
  else
    let k := 52 - binade n d in
    if 0 <=? k
    then Qmake (Z.sgn (Qnum x) * round_half_even (n * 2 ^ k) d) (Z.to_pos (2 ^ k))
    else inject_Z (Z.sgn (Qnum x) * round_half_even n (d * 2 ^ (- k)) * 2 ^ (- k)).

(** [Math.floor(Math.random() * (99999999 - 10000000)) + 10000000], for the
    double [random] that [Math.random()] returned; the floor and the sum are
    exact. *)
Definition draw_msgId (random : Q) : Z :=
  Qfloor (round_to_double (random * inject_Z (99999999 - 10000000))) + 10000000.

Definition createPackets (random : Q) (chunks : list (list Z)) : list Buffer :=
  let count := Z.of_nat (length chunks) in
  let msgId := draw_msgId random in
  forEach_index
    (fun chunk index =>
       Buffer_from (GELF_MAGIC_NO ++ [msgId] ++ [index] ++ [count] ++ chunk))
    0 chunks.

(** What [maybeChunkMessage] returns: the buffer itself, or an array of
    packets. *)
Inductive Message :=
| Single (buf : Buffer)
| Packets (packets : list Buffer).

Definition maybeChunkMessage (cfg : Config) (random : Q) (fuel : nat)
    (buf : Buffer) : option Message :=
  let bufSize := Z.of_nat (length buf) in
  if (String.eqb (connection cfg) "wan" && (maxChunkSizeWan cfg <? bufSize))%bool
  then option_map (fun chunks => Packets (createPackets random chunks))
         (getChunks fuel buf (maxChunkSizeWan cfg))
  else if (String.eqb (connection cfg) "lan" && (maxChunkSizeLan cfg <? bufSize))%bool
  then option_map (fun chunks => Packets (createPackets random chunks))
         (getChunks fuel buf (maxChunkSizeLan cfg))
  else Some (Single buf).

(** [if (!Array.isArray(msg)) msg = [ msg ]] at the head of [send]. *)
Definition datagrams (msg : Message) : list Buffer :=
  match msg with
  | Single buf => [buf]
  | Packets packets => packets
  end.

(** ** JavaScript values

    The values a log event can hold.  A finite number is kept in thousandths:
    [Fixed3 m] is the number [m / 1000].  This covers the integers and the
    timestamps [getTime() / 1000] the normalizer computes, and for fewer than
    sixteen significant digits the decimal text below is the text JavaScript
    prints.  An object is the list of its own properties in property order. *)

Open Scope string_scope.
Set Warnings "-register-all".

Inductive number :=
| NaN
| Infinity (negative : bool)
| Fixed3 (m : Z).

Definition integer (n : Z) : number := Fixed3 (1000 * n).

Inductive JsVal :=
| VUndefined
| VNull
| VBool (b : bool)
| VNum (n : number)
| VStr (s : string)
| VArr (items : list JsVal)
| VObj (props : list (string * JsVal)).

Definition Obj := list (string * JsVal).

(** The argument of [sanitizeMsg]: [{ [key: string]: any } | string]. *)
Inductive LogEvent :=
| Text (s : string)
| Fields (props : Obj).

Definition is_empty (s : string) : bool :=
  match s with EmptyString => true | String _ _ => false end.

(** [ToBoolean]. *)
Definition truthy (v : JsVal) : bool :=
  match v with
  | VUndefined | VNull => false
  | VBool b => b
  | VNum NaN => false
  | VNum (Infinity _) => true
  | VNum (Fixed3 m) => negb (Z.eqb m 0)
  | VStr s => negb (is_empty s)
  | VArr _ | VObj _ => true
  end.

(** [o.key]: the value of the property, [undefined] when there is none. *)
Fixpoint obj_get (o : Obj) (key : string) : JsVal :=
  match o with
  | [] => VUndefined
  | (k, v) :: rest => if String.eqb k key then v else obj_get rest key
  end.

Fixpoint obj_has (o : Obj) (key : string) : bool :=
  match o with
  | [] => false
  | (k, _) :: rest => String.eqb k key || obj_has rest key
  end.

(** [o.key = v]: an existing property keeps its place, a new one goes last. *)
Fixpoint obj_set (o : Obj) (key : string) (v : JsVal) : Obj :=
  match o with
  | [] => [(key, v)]
  | (k, w) :: rest =>
      if String.eqb k key then (k, v) :: rest else (k, w) :: obj_set rest key v
  end.


(** ** [JSON.stringify] *)

Definition dquote : string := String (ascii_of_nat 34) EmptyString.

Definition hex_digit (n : nat) : string :=
  String (ascii_of_nat (if Nat.ltb n 10 then 48 + n else 87 + n)) EmptyString.

Definition escape_char (c : ascii) : string :=
  let n := nat_of_ascii c in
  if Nat.eqb n 34 then "\" ++ dquote
  else if Nat.eqb n 92 then "\\"
  else if Nat.eqb n 8 then "\b"
  else if Nat.eqb n 9 then "\t"
  else if Nat.eqb n 10 then "\n"
  else if Nat.eqb n 12 then "\f"
  else if Nat.eqb n 13 then "\r"
  else if Nat.ltb n 32 then "\u00" ++ hex_digit (Nat.div n 16) ++ hex_digit (Nat.modulo n 16)
  else String c EmptyString.

Fixpoint escape (s : string) : string :=
  match s with
  | EmptyString => EmptyString
  | String c rest => escape_char c ++ escape rest
  end.

Definition quote (s : string) : string := dquote ++ escape s ++ dquote.

Definition decimal (n : Z) : string :=
  NilZero.string_of_uint (N.to_uint (Z.to_N n)).

Definition fraction (f : Z) : string :=
  let d1 := decimal (f / 100) in
  let d2 := decimal ((f / 10) mod 10) in
  let d3 := decimal (f mod 10) in
  if Z.eqb f 0 then EmptyString
  else if negb (Z.eqb (f mod 10) 0) then "." ++ d1 ++ d2 ++ d3
  else if negb (Z.eqb ((f / 10) mod 10) 0) then "." ++ d1 ++ d2
  else "." ++ d1.

(** A number inside JSON text: [null] when it is not finite. *)
Definition number_to_json (n : number) : string :=
  match n with
  | NaN | Infinity _ => "null"
  | Fixed3 m =>
      let a := Z.abs m in
      (if Z.ltb m 0 then "-" else EmptyString) ++ decimal (a / 1000) ++ fraction (a mod 1000)
  end.

Fixpoint join (sep : string) (l : list string) : string :=
  match l with
  | [] => EmptyString
  | [s] => s
  | s :: rest => s ++ sep ++ join sep rest
  end.

(** [None] is the [undefined] that [JSON.stringify] returns for a value it
    leaves out: a property holding it is dropped, an array entry becomes
    [null]. *)
Fixpoint stringify (v : JsVal) : option string :=
  match v with
  | VUndefined => None
  | VNull => Some "null"
  | VBool true => Some "true"
  | VBool false => Some "false"
  | VNum n => Some (number_to_json n)
  | VStr s => Some (quote s)
  | VArr items =>
      Some ("[" ++ join ","
              ((fix entries (l : list JsVal) : list string :=
                  match l with
                  | [] => []
                  | x :: rest => or_default (stringify x) "null" :: entries rest
                  end) items) ++ "]")
  | VObj props =>
      Some ("{" ++ join ","
              ((fix members (l : list (string * JsVal)) : list string :=
                  match l with
                  | [] => []
                  | (k, x) :: rest =>
                      match stringify x with
                      | Some s => (quote k ++ ":" ++ s) :: members rest
                      | None => members rest
                      end
                  end) props) ++ "}")
  end.

Definition JSON_stringify (json : Obj) : string :=
  or_default (stringify (VObj json)) EmptyString.

(** ** Effects

    What a run of the pipeline does: UDP sends, calls of the caller's
    completion callback and errors delivered on the ['error'] channel, in the
    order they happen.  A run ends normally, with an exception that nothing
    catches, or not at all. *)

Inductive JsError :=
| Error (message : string)
| TypeError (message : string).

Inductive Event :=
| EvSend (m : Buffer) (port : Z) (host : string)
| EvCallback (err : option JsError)
| EvError (err : JsError).

Record State := {
  trace : list Event;
  (** results of the UDP sends still to come; a send past the end succeeds *)
  network : list (option JsError)
}.

Inductive Outcome (A : Type) :=
| Done (a : A)
| Thrown (e : JsError)
| Diverges.

Arguments Done {A} a.
Arguments Thrown {A} e.
Arguments Diverges {A}.

Definition M (A : Type) : Type := State -> State * Outcome A.

Definition ret {A : Type} (a : A) : M A := fun st => (st, Done a).

Definition bind {A B : Type} (m : M A) (k : A -> M B) : M B :=
  fun st =>
    match m st with
    | (st', Done a) => k a st'
    | (st', Thrown e) => (st', Thrown e)
    | (st', Diverges) => (st', Diverges)
    end.

Notation "x <- m ;; k" := (bind m (fun x => k))
  (at level 61, m at next level, right associativity).
Notation "m ;;; k" := (bind m (fun _ => k))
  (at level 61, right associativity).

Definition throw {A : Type} (e : JsError) : M A := fun st => (st, Thrown e).

Definition diverge {A : Type} : M A := fun st => (st, Diverges).

Definition log (ev : Event) : M unit :=
  fun st => ({| trace := (trace st ++ [ev])%list; network := network st |}, Done tt).

(** What the instance works with besides its configuration. *)
Record Env := {
  config : Config;
  hostname : string;                     (* os.hostname() *)
  clock : Z;                             (* new Date().getTime() *)
  random : Q;                            (* Math.random() *)
  deflate : string -> JsError + Buffer;  (* zlib's deflate *)
  errorListeners : bool;                 (* is anyone subscribed to 'error' *)
  loopFuel : nat
}.

(** A callback [(err) => ...]; the boolean is the truthiness of what it
    returns. *)
Definition Callback := option JsError -> M bool.

(** The default [() => {}]. *)
Definition noop : Callback := fun _ => ret false.

(** A callback of the caller, returning something of truthiness [result]. *)
Definition caller_callback (result : option JsError -> bool) : Callback :=
  fun err => log (EvCallback err) ;;; ret (result err).

(** [this.emit('error', err)]: without a subscriber the emitter throws. *)
Definition emitError (env : Env) (err : JsError) : M unit :=
  if errorListeners env then log (EvError err) else throw err.

(** ** Objects with a prototype

    The object [json] that [sanitizeMsg] fills: its own properties and the
    object it inherits from.  A fresh [{}] inherits from [Object.prototype],
    whose accessor [__proto__] turns an assignment to that name into a change
    of prototype.  The events themselves are objects as [JSON.parse] makes
    them: distinct own keys (one of which may be [__proto__]) and
    [Object.prototype] above.  The methods of [Object.prototype] and
    [Array.prototype] are not modelled; none has a name read or written
    here. *)

Inductive Prototype :=
| ObjectPrototype
| NullPrototype
| ValuePrototype (v : JsVal).

Record JsObject := {
  own : Obj;
  proto : Prototype
}.

(** [{}]. *)
Definition empty_object : JsObject := {| own := []; proto := ObjectPrototype |}.

(** The entry of an array under a property name. *)
Fixpoint array_get (items : list JsVal) (index : Z) (key : string) : JsVal :=
  match items with
  | [] => VUndefined
  | x :: rest =>
      if String.eqb (decimal index) key then x else array_get rest (index + 1) key
  end.

(** What an object finds under [key] in the object it inherits from. *)
Definition inherited (p : Prototype) (key : string) : JsVal :=
  match p with
  | ValuePrototype (VObj props) => obj_get props key
  | ValuePrototype (VArr items) =>
      if String.eqb key "length"
      then VNum (integer (Z.of_nat (List.length items)))
      else array_get items 0 key
  | _ => VUndefined
  end.

(** [json.key], read through the prototype chain. *)
Definition json_get (json : JsObject) (key : string) : JsVal :=
  if obj_has (own json) key then obj_get (own json) key
  else inherited (proto json) key.

(** Does an assignment to [__proto__] reach the accessor of
    [Object.prototype]: not when the name is an own property, or a property
    of the object inherited from, or when nothing is inherited. *)
Definition proto_setter_reachable (json : JsObject) : bool :=
  negb (obj_has (own json) "__proto__") &&
  match proto json with
  | ObjectPrototype => true
  | NullPrototype => false
  | ValuePrototype (VObj props) => negb (obj_has props "__proto__")
  | ValuePrototype _ => true
  end.

(** [json[key] = v].  Through the accessor an object, an array or [null]
    becomes the prototype and any other value is ignored; every other
    assignment writes an own property. *)
Definition set_property (json : JsObject) (key : string) (v : JsVal) : JsObject :=
  if (String.eqb key "__proto__" && proto_setter_reachable json)%bool
  then match v with
       | VObj _ | VArr _ => {| own := own json; proto := ValuePrototype v |}
       | VNull => {| own := own json; proto := NullPrototype |}
       | _ => json
       end
  else {| own := obj_set (own json) key v; proto := proto json |}.

(** [Object.assign(target, source)]: every own property of [source] is
    assigned to [target], in order. *)
Definition Object_assign (target : JsObject) (source : Obj) : JsObject :=
  fold_left (fun o kv => set_property o (fst kv) (snd kv)) source target.

(** ** The normalizer *)

(** The defaults set under [typeof msg === 'object']. *)
Definition fill_defaults (env : Env) (msg : Obj) (json : JsObject) : JsObject :=
  let json :=
    if negb (truthy (obj_get msg "version"))
    then set_property json "version" (VStr "1.0") else json in
  let json :=
    if negb (truthy (obj_get msg "host"))
    then set_property json "host" (VStr (hostname env)) else json in
  let json :=
    if negb (truthy (obj_get msg "timestamp"))
    then set_property json "timestamp" (VNum (Fixed3 (clock env))) else json in
  if negb (truthy (obj_get msg "facility"))
  then set_property json "facility" (VStr "node.js") else json.

Definition fill_short_message (json : JsObject) : JsObject :=
  if negb (truthy (json_get json "short_message"))
  then set_property json "short_message" (VStr "Gelf Shortmessage") else json.

(** The own properties of the object [json] that [sanitizeMsg] serializes
    ([JSON.stringify] writes own properties only), [None] when it returns
    early. *)
Definition sanitizeMsg_json (env : Env) (msg : LogEvent) : M (option Obj) :=
  let json := empty_object in
  match msg with
  | Text s =>
      let json := set_property json "short_message" (VStr s) in
      ret (Some (own (fill_short_message json)))
  | Fields props =>
      let json := Object_assign json props in
      if truthy (obj_get props "_id")
      then emitError env (Error "_id is not allowed") ;;; ret None
      else ret (Some (own (fill_short_message (fill_defaults env props json))))
  end.

Definition sanitizeMsg (env : Env) (msg : LogEvent) : M (option string) :=
  json <- sanitizeMsg_json env msg ;;
  ret (option_map JSON_stringify json).

(** ** The transport *)

(** [client.send(m, 0, m.length, port, host, cb)]. *)
Definition client_send (m : Buffer) (port : Z) (host : string)
    (cb : option JsError -> M unit) : M unit :=
  fun st =>
    cb (hd None (network st))
       {| trace := (trace st ++ [EvSend m port host])%list;
          network := tl (network st) |}.

(** One entry of [tasks] in [send]. *)
Definition send_task (env : Env) (m : Buffer) (cb : Callback) : M unit :=
  client_send m (graylogPort (config env)) (graylogHostname (config env))
    (fun err =>
       match err with
       | Some e => r <- cb (Some e) ;; if r then emitError env e else ret tt
       | None => cb None ;;; ret tt
       end).

(** [async.series(tasks, callback)]: the tasks run one after the other; the
    first error ends the series and goes to [callback].  The callback a task
    is handed returns nothing. *)
Fixpoint async_series (tasks : list (Callback -> M unit))
    (callback : option JsError -> M unit) : M unit :=
  match tasks with
  | [] => callback None
  | task :: rest =>
      task (fun err =>
              match err with
              | Some e => callback (Some e) ;;; ret false
              | None => async_series rest callback ;;; ret false
              end)
  end.

Definition send (env : Env) (msg : Message) (cb : Callback) : M unit :=
  let msg := datagrams msg in
  let tasks := map (send_task env) msg in
  async_series tasks
    (fun err =>
       match err with
       | Some e => r <- cb (Some e) ;; if r then emitError env e else ret tt
       | None => cb None ;;; ret tt
       end).

Definition compress (env : Env) (msg : string)
    (cb : option JsError -> option Buffer -> M unit) : M unit :=
  match deflate env msg with
  | inl err => cb (Some err) None ;;; emitError env err
  | inr buf => cb None (Some buf)
  end.

(** [sendMessage]: the callback it gives [compress] ignores the error and
    reads [buf.length], which throws when [buf] is [undefined]. *)
Definition sendMessage (env : Env) (msg : string) (cb : Callback) : M unit :=
  compress env msg
    (fun _ buf =>
       match buf with
       | None => throw (TypeError "Cannot read properties of undefined (reading 'length')")
       | Some buf =>
           match maybeChunkMessage (config env) (random env) (loopFuel env) buf with
           | None => diverge
           | Some m => send env m cb
           end
       end).

(** The handler of ['gelf.log']; [json] and [cb] default to [{}] and
    [() => {}]. *)
Definition on_gelf_log (env : Env) (json : option LogEvent)
    (cb : option Callback) : M unit :=
  let json := or_default json (Fields []) in
  let cb := or_default cb noop in
  r <- sanitizeMsg env json ;;
  let msg := or_default r EmptyString in
  sendMessage env msg cb.

(** The handler of ['gelf.message']. *)
Definition on_gelf_message (env : Env) (msg : string) (cb : option Callback)
    : M unit :=
  sendMessage env msg (or_default cb noop).

Definition run {A : Type} (m : M A) (net : list (option JsError))
    : State * Outcome A :=
  m {| trace := []; network := net |}.

(** ** Observations used by the properties *)

Open Scope list_scope.
Open Scope Z_scope.

(** The bytes [createPackets] puts in front of a fragment. *)
Definition chunk_header (random : Q) (index count : Z) : Buffer :=
  Buffer_from (GELF_MAGIC_NO ++ [draw_msgId random] ++ [index] ++ [count]).

(** The fields of that header, by position. *)
Definition header_magic (packet : Buffer) : Buffer := firstn 2 packet.
Definition header_msgId (packet : Buffer) : option byte := nth_error packet 2.
Definition header_index (packet : Buffer) : option byte := nth_error packet 3.
Definition header_count (packet : Buffer) : option byte := nth_error packet 4.

(** What a receiver does: drop [header] bytes from every datagram, taken in
    sequence order, and concatenate what is left. *)
Definition reassemble (header : nat) (packets : list Buffer) : Buffer :=
  concat (map (skipn header) packets).

Definition sends (t : list Event) : list Buffer :=
  flat_map (fun ev => match ev with EvSend m _ _ => [m] | _ => [] end) t.

Definition callbacks (t : list Event) : list (option JsError) :=
  flat_map (fun ev => match ev with EvCallback err => [err] | _ => [] end) t.

Definition errors (t : list Event) : list JsError :=
  flat_map (fun ev => match ev with EvError err => [err] | _ => [] end) t.

(** The same instance at another time on a host of another name. *)
Definition at_time (env : Env) (now : Z) (host : string) : Env := {|
  config := config env;
  hostname := host;
  clock := now;
  random := random env;
  deflate := deflate env;
  errorListeners := errorListeners env;
  loopFuel := loopFuel env
|}.

(** A concrete instance: the default configuration, a subscriber on the
    error channel and a codec that answers with the given bytes. *)
Definition sample_env (codec : string -> JsError + Buffer) : Env := {|
  config := defaults;
  hostname := "localhost";
  clock := 1700000000123;
  random := 1 # 2;
  deflate := codec;
  errorListeners := true;
  loopFuel := 16
|}.

(** zlib's output for the empty string. *)
Definition deflate_of_empty : Buffer := [x78; x9c; x03; x00; x00; x00; x00; x01].

Definition codec_ok (_ : string) : JsError + Buffer := inr deflate_of_empty.

Definition codec_failing (_ : string) : JsError + Buffer :=
  inl (Error "deflate failed").

(** The size limit [maybeChunkMessage] compares with, if any. *)
Definition chunk_limit (cfg : Config) : option Z :=
  if String.eqb (connection cfg) "wan" then Some (maxChunkSizeWan cfg)
  else if String.eqb (connection cfg) "lan" then Some (maxChunkSizeLan cfg)
  else None.

(** A payload of [n] bytes. *)
Definition payload_of (n : nat) : Buffer := repeat x61 n.

(** Two log events used below: one whose [_id] is the number 0, one whose
    [_id] is a non-empty string. *)
Definition event_with_zero_id : LogEvent :=
  Fields [("_id", VNum (integer 0)); ("short_message", VStr "disk full")].

Definition event_with_text_id : LogEvent :=
  Fields [("_id", VStr "abc"); ("short_message", VStr "disk full")].

(** A log event that brings all four defaulted fields, its timestamp being
    the number 0. *)
Definition fields_with_zero_timestamp : Obj :=
  [("version", VStr "1.1"); ("host", VStr "web-1");
   ("short_message", VStr "disk full");
   ("timestamp", VNum (integer 0)); ("facility", VStr "cron")].

Definition event_with_zero_timestamp : LogEvent :=
  Fields fields_with_zero_timestamp.

(** A log event with a host and a timestamp, and neither version nor
    facility. *)
Definition event_with_host_and_time : LogEvent :=
  Fields [("host", VStr "web-1"); ("short_message", VStr "disk full");
          ("timestamp", VNum (Fixed3 1699999999500))].

(** A callback of the caller that returns nothing. *)
Definition silent_callback : Callback := caller_callback (fun _ => false).

(** The event a send of [m] leaves in the trace. *)
Definition send_event (env : Env) (m : Buffer) : Event :=
  EvSend m (graylogPort (config env)) (graylogHostname (config env)).

(** How far a series of sends gets on a network that answers with [net]:
    the datagrams handed to the socket, the answers left unused and the error
    that ended the series, if one did. *)
Fixpoint series_progress (ps : list Buffer) (net : list (option JsError))
    : list Buffer * list (option JsError) * option JsError :=
  match ps with
  | [] => ([], net, None)
  | p :: rest =>
      match hd None net with
      | Some e => ([p], tl net, Some e)
      | None =>
          let '(sent, net', r) := series_progress rest (tl net) in
          (p :: sent, net', r)
      end
  end.

(** The keys [sanitizeMsg] may write besides the ones it copies. *)
Definition defaulted_keys : list string :=
  ["version"; "host"; "timestamp"; "facility"; "short_message"]%string.

(** An instance like [sample_env] with nobody subscribed to ['error']. *)
Definition unsubscribed (env : Env) : Env := {|
  config := config env;
  hostname := hostname env;
  clock := clock env;
  random := random env;
  deflate := deflate env;
  errorListeners := false;
  loopFuel := loopFuel env
|}.

(** An instance with another configuration. *)
Definition with_config (env : Env) (cfg : Config) : Env := {|
  config := cfg;
  hostname := hostname env;
  clock := clock env;
  random := random env;
  deflate := deflate env;
  errorListeners := errorListeners env;
  loopFuel := loopFuel env
|}.

(** A codec that answers every text with the same [n] bytes. *)
Definition codec_of_size (n : nat) (_ : string) : JsError + Buffer :=
  inr (payload_of n).

(** Runs the transport on the recorded state as far as the code alone
    decides. *)
Ltac run_pipeline :=
  cbv [run send datagrams map send_task async_series client_send bind
       caller_callback log ret throw emitError hd tl trace network app].

(** ** The chunker: properties *)

Lemma toUint8_byte_to_number (b : byte) : toUint8 (byte_to_number b) = b.
Proof. destruct b; reflexivity. Qed.

Lemma Buffer_from_bytes (buf : Buffer) :
  Buffer_from (map byte_to_number buf) = buf.
Proof.
  unfold Buffer_from. induction buf as [|b buf IH]; simpl.
  - reflexivity.
  - now rewrite toUint8_byte_to_number, IH.
Qed.

Lemma Buffer_from_app (a b : list Z) :
  Buffer_from (a ++ b) = Buffer_from a ++ Buffer_from b.
Proof. apply map_app. Qed.

Lemma Buffer_from_concat (chunks : list (list Z)) :
  Buffer_from (concat chunks) = concat (map Buffer_from chunks).
Proof. unfold Buffer_from. apply concat_map. Qed.

(** Inside the array [slice] is a [skipn] followed by a [firstn]. *)
Lemma js_slice_in_range {A : Type} (l : list A) (a b : Z) :
  0 <= a <= Z.of_nat (length l) -> a <= b ->
  js_slice l a b =
  firstn (Z.to_nat (Z.min b (Z.of_nat (length l)) - a)) (skipn (Z.to_nat a) l).
Proof.
  intros Ha Hb. unfold js_slice.
  destruct (a <? 0) eqn:Ea; [apply Z.ltb_lt in Ea; lia|].
  destruct (b <? 0) eqn:Eb; [apply Z.ltb_lt in Eb; lia|].
  now rewrite (Z.min_l a) by lia.
Qed.

Lemma skipn_add {A : Type} (n m : nat) (l : list A) :
  skipn (n + m) l = skipn m (skipn n l).
Proof.
  revert l. induction n as [|n IH]; intros l; simpl.
  - reflexivity.
  - destruct l as [|x l]; simpl.
    + now rewrite skipn_nil.
    + apply IH.
Qed.

(** The loop of [getChunks] with a positive step: it ends within the fuel,
    it only appends to [res], and what it appends is the rest of the buffer
    from [index] on, cut into non-empty pieces of at most [chunkSize]. *)
Lemma getChunks_loop_spec (fuel : nat) :
  forall (buf : Buffer) (chunkSize index : Z) (res : list (list Z)),
    0 < chunkSize -> 0 <= index ->
    Z.max 0 (Z.of_nat (length buf) - index) + chunkSize <= chunkSize * Z.of_nat fuel ->
    exists chunks,
      getChunks_loop fuel buf chunkSize index res = Some (res ++ chunks) /\
      concat chunks = skipn (Z.to_nat index) (map byte_to_number buf) /\
      Forall (fun c => 0 < Z.of_nat (length c) <= chunkSize) chunks.
Proof.
  induction fuel as [|fuel IH]; intros buf cs index res Hcs Hidx Hfuel.
  - exfalso. rewrite Z.mul_0_r in Hfuel. lia.
  - simpl. destruct (index <? Z.of_nat (length buf)) eqn:E.
    + apply Z.ltb_lt in E.
      destruct (IH buf cs (index + cs)
                  (res ++ [js_slice (map byte_to_number buf) index (index + cs)]))
        as (chunks & Hrun & Hcat & Hall); try lia.
      { rewrite Nat2Z.inj_succ, Z.mul_succ_r in Hfuel.
        rewrite Z.max_r in Hfuel by lia.
        destruct (Z.max_spec 0 (Z.of_nat (length buf) - (index + cs))) as [[_ ->]|[_ ->]];
          [lia|].
        assert (0 < Z.of_nat fuel) by nia. nia. }
      exists (js_slice (map byte_to_number buf) index (index + cs) :: chunks).
      split; [|split].
      * rewrite Hrun, <- app_assoc. reflexivity.
      * simpl. rewrite Hcat.
        rewrite js_slice_in_range by (rewrite ?length_map; lia).
        rewrite length_map.
        set (n := Z.to_nat (Z.min (index + cs) (Z.of_nat (length buf)) - index)).
        destruct (Z.min_spec (index + cs) (Z.of_nat (length buf))) as [[Hlt Hmin]|[Hge Hmin]].
        -- replace (Z.to_nat (index + cs)) with (Z.to_nat index + n)%nat by lia.
           rewrite skipn_add. apply firstn_skipn.
        -- rewrite (skipn_all2 (n := Z.to_nat (index + cs))) by (rewrite ?length_map; lia).
           rewrite app_nil_r. apply firstn_all2.
           rewrite length_skipn, length_map. lia.
      * constructor; [|exact Hall].
        rewrite js_slice_in_range by (rewrite ?length_map; lia).
        rewrite length_firstn, length_skipn, !length_map. lia.
    + apply Z.ltb_ge in E. exists []. split; [|split].
      * now rewrite app_nil_r.
      * simpl. symmetry. apply skipn_all2. rewrite length_map. lia.
      * constructor.
Qed.

Lemma getChunks_spec (fuel : nat) (buf : Buffer) (chunkSize : Z) :
  0 < chunkSize ->
  Z.of_nat (length buf) + chunkSize <= chunkSize * Z.of_nat fuel ->
  exists chunks,
    getChunks fuel buf chunkSize = Some chunks /\
    concat chunks = map byte_to_number buf /\
    Forall (fun c => 0 < Z.of_nat (length c) <= chunkSize) chunks.
Proof.
  intros Hcs Hfuel.
  destruct (getChunks_loop_spec fuel buf chunkSize 0 [] Hcs (Z.le_refl 0))
    as (chunks & Hrun & Hcat & Hall).
  - rewrite Z.sub_0_r, Z.max_r by lia. exact Hfuel.
  - exists chunks. auto.
Qed.

(** With a step that is not positive the loop never leaves a non-empty
    buffer. *)
Lemma getChunks_loop_diverges (fuel : nat) :
  forall (buf : Buffer) (chunkSize index : Z) (res : list (list Z)),
    chunkSize <= 0 -> index < Z.of_nat (length buf) ->
    getChunks_loop fuel buf chunkSize index res = None.
Proof.
  induction fuel as [|fuel IH]; intros buf cs index res Hcs Hidx; simpl.
  - reflexivity.
  - apply Z.ltb_lt in Hidx as E. rewrite E. apply IH; lia.
Qed.

Lemma forEach_index_length {A B : Type} (f : A -> Z -> B) (l : list A) :
  forall index, length (forEach_index f index l) = length l.
Proof. induction l as [|x l IH]; intros index; simpl; [|rewrite IH]; reflexivity. Qed.

Lemma forEach_index_nth {A B : Type} (f : A -> Z -> B) (l : list A) :
  forall (index : Z) (k : nat),
    nth_error (forEach_index f index l) k =
    option_map (fun x => f x (index + Z.of_nat k)) (nth_error l k).
Proof.
  induction l as [|x l IH]; intros index k.
  - destruct k; reflexivity.
  - destruct k as [|k]; simpl.
    + now rewrite Z.add_0_r.
    + rewrite IH. f_equal.
      replace (index + 1 + Z.of_nat k) with (index + Z.pos (Pos.of_succ_nat k)) by lia.
      reflexivity.
Qed.

Lemma forEach_index_In {A B : Type} (f : A -> Z -> B) (l : list A) (y : B) :
  forall index, In y (forEach_index f index l) -> exists x i, In x l /\ y = f x i.
Proof.
  induction l as [|x l IH]; intros index Hin; simpl in Hin.
  - contradiction.
  - destruct Hin as [<-|Hin].
    + exists x, index. split; [now left|reflexivity].
    + destruct (IH _ Hin) as (x' & i & Hx & ->). exists x', i. split; [now right|reflexivity].
Qed.

(** Every packet is the five header bytes followed by its fragment. *)
Lemma createPackets_frames (random : Q) (chunks : list (list Z)) :
  createPackets random chunks =
  forEach_index
    (fun chunk index =>
       chunk_header random index (Z.of_nat (length chunks)) ++ Buffer_from chunk)
    0 chunks.
Proof. reflexivity. Qed.

Lemma chunk_header_bytes (random : Q) (index count : Z) :
  chunk_header random index count =
  [x1e; x0f; toUint8 (draw_msgId random); toUint8 index; toUint8 count].
Proof. reflexivity. Qed.

Lemma createPackets_length (random : Q) (chunks : list (list Z)) :
  length (createPackets random chunks) = length chunks.
Proof. apply forEach_index_length. Qed.

Lemma createPackets_nth (random : Q) (chunks : list (list Z)) (k : nat) (chunk : list Z) :
  nth_error chunks k = Some chunk ->
  nth_error (createPackets random chunks) k =
  Some (chunk_header random (Z.of_nat k) (Z.of_nat (length chunks)) ++ Buffer_from chunk).
Proof.
  intros Hk. rewrite createPackets_frames, forEach_index_nth, Hk. reflexivity.
Qed.

Lemma reassemble_frames {A : Type} (h : A -> Z -> Buffer) (body : A -> Buffer)
    (n : nat) (l : list A) :
  (forall x i, length (h x i) = n) ->
  forall index,
    reassemble n (forEach_index (fun x i => h x i ++ body x) index l) =
    concat (map body l).
Proof.
  intros Hh. unfold reassemble.
  induction l as [|x l IH]; intros index; simpl.
  - reflexivity.
  - rewrite IH. f_equal.
    rewrite skipn_app, skipn_all2 by (rewrite Hh; lia).
    rewrite Hh, Nat.sub_diag. reflexivity.
Qed.

(** Dropping the five bytes [createPackets] wrote gives the fragments back. *)
Lemma reassemble_createPackets (random : Q) (chunks : list (list Z)) :
  reassemble 5 (createPackets random chunks) = Buffer_from (concat chunks).
Proof.
  rewrite createPackets_frames, Buffer_from_concat.
  apply (reassemble_frames
           (fun (_ : list Z) i => chunk_header random i (Z.of_nat (length chunks)))
           Buffer_from 5).
  reflexivity.
Qed.

(** Above the limit of its connection kind [maybeChunkMessage] frames the
    pieces [getChunks] cut. *)
Lemma maybeChunkMessage_chunks (cfg : Config) (random : Q) (fuel : nat)
    (buf : Buffer) (limit : Z) :
  chunk_limit cfg = Some limit ->
  0 < limit < Z.of_nat (length buf) ->
  Z.of_nat (length buf) + limit <= limit * Z.of_nat fuel ->
  exists chunks,
    maybeChunkMessage cfg random fuel buf = Some (Packets (createPackets random chunks)) /\
    concat chunks = map byte_to_number buf /\
    Forall (fun c => 0 < Z.of_nat (length c) <= limit) chunks.
Proof.
  intros Hlimit [Hpos Hlong] Hfuel.
  destruct (getChunks_spec fuel buf limit Hpos Hfuel) as (chunks & Hrun & Hcat & Hall).
  exists chunks. split; [|now split].
  apply Z.ltb_lt in Hlong.
  unfold chunk_limit in Hlimit. unfold maybeChunkMessage.
  destruct (String.eqb (connection cfg) "wan").
  - injection Hlimit as ->. rewrite Hlong, Hrun. reflexivity.
  - destruct (String.eqb (connection cfg) "lan"); [|discriminate].
    injection Hlimit as ->. rewrite Hlong, Hrun. reflexivity.
Qed.

(** Reassembly with the header length the code writes: the payload comes
    back byte for byte. *)
Lemma roundtrip_five_byte_header (cfg : Config) (random : Q) (fuel : nat)
    (buf : Buffer) (limit : Z) :
  chunk_limit cfg = Some limit ->
  0 < limit < Z.of_nat (length buf) ->
  Z.of_nat (length buf) + limit <= limit * Z.of_nat fuel ->
  exists packets,
    maybeChunkMessage cfg random fuel buf = Some (Packets packets) /\
    reassemble 5 packets = buf.
Proof.
  intros Hlimit Hlen Hfuel.
  destruct (maybeChunkMessage_chunks cfg random fuel buf limit Hlimit Hlen Hfuel)
    as (chunks & Hrun & Hcat & _).
  exists (createPackets random chunks). split; [exact Hrun|].
  rewrite reassemble_createPackets, Hcat. apply Buffer_from_bytes.
Qed.

Lemma maybeChunkMessage_packets (cfg : Config) (random : Q) (fuel : nat)
    (buf : Buffer) (packets : list Buffer) :
  maybeChunkMessage cfg random fuel buf = Some (Packets packets) ->
  exists chunks, packets = createPackets random chunks.
Proof.
  unfold maybeChunkMessage. intros H.
  destruct (_ && _)%bool in H.
  - destruct (getChunks fuel buf (maxChunkSizeWan cfg)) as [chunks|]; [|discriminate].
    exists chunks. simpl in H. congruence.
  - destruct (_ && _)%bool in H; [|discriminate].
    destruct (getChunks fuel buf (maxChunkSizeLan cfg)) as [chunks|]; [|discriminate].
    exists chunks. simpl in H. congruence.
Qed.

Lemma forEach_index_map {A B C : Type} (g : A -> B) (f : B -> Z -> C) (l : list A) :
  forall index,
    forEach_index f index (map g l) = forEach_index (fun x i => f (g x) i) index l.
Proof. induction l as [|x l IH]; intros index; simpl; [|rewrite IH]; reflexivity. Qed.

Lemma concat_length_bound {A : Type} (limit : nat) (l : list (list A)) :
  Forall (fun c => (length c <= limit)%nat) l ->
  (length (concat l) <= limit * length l)%nat.
Proof.
  induction 1 as [|c l Hc _ IH]; simpl.
  - lia.
  - rewrite length_app. lia.
Qed.

(** C1 (evaluated at a payload of 1421 bytes on the default WAN profile):
    concatenating what is left of the datagrams after dropping 12 bytes from
    each gives 1413 bytes, not the payload; the header [createPackets] writes
    is 5 bytes long and dropping those 5 bytes does give the payload back. *)
Theorem C1_reassembly_after_12_bytes_differs :
  exists packets,
    maybeChunkMessage defaults (1 # 2) 3 (payload_of 1421) = Some (Packets packets) /\
    length (reassemble 12 packets) = 1413%nat /\
    reassemble 12 packets <> payload_of 1421 /\
    reassemble 5 packets = payload_of 1421.
Proof.
  eexists. split; [vm_compute; reflexivity|].
  split; [vm_compute; reflexivity|].
  split; [|vm_compute; reflexivity].
  intros H. apply (f_equal (@length byte)) in H. vm_compute in H. discriminate.
Qed.

(** C2 (evaluated at a payload of 1421 bytes on the default WAN profile):
    each datagram starts with the two magic bytes, ONE byte of message id
    (the drawn number modulo 256), the index byte and the count byte, five
    bytes in all, and the fragment follows at once; the second datagram is 6
    bytes long, too short to hold a 12-byte header. *)
Theorem C2_header_is_five_bytes :
  maybeChunkMessage defaults (1 # 2) 3 (payload_of 1421) =
    Some (Packets [ [x1e; x0f; xbf; x00; x02] ++ payload_of 1420;
                    [x1e; x0f; xbf; x01; x02] ++ payload_of 1 ]) /\
  draw_msgId (1 # 2) = 54999999 /\
  toUint8 54999999 = xbf.
Proof. repeat split; vm_compute; reflexivity. Qed.

(** Whatever packets [maybeChunkMessage] returns, they carry the magic
    bytes, one message-id byte and one count byte, the same in all. *)
Lemma packets_share_id_and_count (cfg : Config) (random : Q) (fuel : nat)
    (buf : Buffer) (packets : list Buffer) :
  maybeChunkMessage cfg random fuel buf = Some (Packets packets) ->
  forall p, In p packets ->
    header_magic p = [x1e; x0f] /\
    header_msgId p = Some (toUint8 (draw_msgId random)) /\
    header_count p = Some (toUint8 (Z.of_nat (length packets))).
Proof.
  intros Hrun p Hin.
  destruct (maybeChunkMessage_packets _ _ _ _ _ Hrun) as (chunks & ->).
  rewrite createPackets_length.
  rewrite createPackets_frames in Hin.
  destruct (forEach_index_In _ _ _ _ Hin) as (chunk & index & _ & ->).
  repeat split.
Qed.

(** C8: a payload above the limit of its connection kind is sent as
    packets whose headers all carry the same message-id byte and the same
    total-count byte. *)
Theorem C8_same_id_and_count (cfg : Config) (random : Q) (fuel : nat)
    (buf : Buffer) (limit : Z) :
  chunk_limit cfg = Some limit ->
  0 < limit < Z.of_nat (length buf) ->
  Z.of_nat (length buf) + limit <= limit * Z.of_nat fuel ->
  exists packets id count,
    maybeChunkMessage cfg random fuel buf = Some (Packets packets) /\
    forall p, In p packets ->
      header_msgId p = Some id /\ header_count p = Some count.
Proof.
  intros Hlimit Hlen Hfuel.
  destruct (maybeChunkMessage_chunks cfg random fuel buf limit Hlimit Hlen Hfuel)
    as (chunks & Hrun & _).
  exists (createPackets random chunks), (toUint8 (draw_msgId random)),
    (toUint8 (Z.of_nat (length (createPackets random chunks)))).
  split; [exact Hrun|].
  intros p Hin.
  destruct (packets_share_id_and_count _ _ _ _ _ Hrun p Hin) as (_ & Hid & Hcount).
  now split.
Qed.

Lemma C8_same_id_and_count_witness :
  exists packets id count,
    maybeChunkMessage defaults (1 # 2) 3 (payload_of 1421) = Some (Packets packets) /\
    forall p, In p packets ->
      header_msgId p = Some id /\ header_count p = Some count.
Proof.
  apply (C8_same_id_and_count defaults (1 # 2) 3 (payload_of 1421) 1420).
  - reflexivity.
  - unfold payload_of. rewrite repeat_length. lia.
  - unfold payload_of. rewrite repeat_length. lia.
Defined.

(** C10: with a connection kind that is neither ['wan'] nor ['lan'] the
    payload comes back as it is, whatever its size and the limits. *)
Theorem C10_other_connection_never_chunks (cfg : Config) (random : Q)
    (fuel : nat) (buf : Buffer) :
  connection cfg <> "wan"%string -> connection cfg <> "lan"%string ->
  maybeChunkMessage cfg random fuel buf = Some (Single buf).
Proof.
  intros Hwan Hlan. unfold maybeChunkMessage.
  apply String.eqb_neq in Hwan, Hlan. rewrite Hwan, Hlan. reflexivity.
Qed.

Lemma C10_other_connection_never_chunks_witness :
  maybeChunkMessage
    (assign_options defaults
       {| opt_graylogPort := None; opt_graylogHostname := None;
          opt_connection := Some "vpn"%string;
          opt_maxChunkSizeWan := Some 2; opt_maxChunkSizeLan := Some 2 |})
    (1 # 2) 0 (payload_of 4000) = Some (Single (payload_of 4000)).
Proof.
  apply C10_other_connection_never_chunks; simpl; discriminate.
Defined.

(** ** The normalizer: properties *)

(** A truthy [_id]: the error goes to the error channel and there is no
    envelope. *)
Lemma sanitizeMsg_rejects_truthy_id (env : Env) (props : Obj) (st : State) :
  truthy (obj_get props "_id") = true ->
  errorListeners env = true ->
  sanitizeMsg env (Fields props) st =
  ({| trace := trace st ++ [EvError (Error "_id is not allowed")];
      network := network st |}, Done None).
Proof.
  intros Hid Hl. unfold sanitizeMsg, sanitizeMsg_json, bind, emitError.
  rewrite Hid, Hl. reflexivity.
Qed.

(** An [_id] that is falsy (0, the empty string, [null], [false], ...) is
    not noticed: an envelope comes out and nothing is reported. *)
Lemma sanitizeMsg_accepts_falsy_id (env : Env) (props : Obj) (st : State) :
  truthy (obj_get props "_id") = false ->
  exists text, sanitizeMsg env (Fields props) st = (st, Done (Some text)).
Proof.
  intros Hid. unfold sanitizeMsg, sanitizeMsg_json, bind.
  rewrite Hid. eexists. reflexivity.
Qed.

(** C3 (evaluated at the mapping [{_id: 0, short_message: 'disk full'}]):
    normalization does not fail; it returns an envelope that carries the
    [_id] field, nothing is reported on the error channel, and the handler
    sends the message.  At [{_id: 'abc', short_message: 'disk full'}] the
    error is reported and there is no envelope, but the handler still sends a
    datagram, the compressed empty string. *)
Theorem C3_zero_id_is_accepted :
  run (sanitizeMsg (sample_env codec_ok) event_with_zero_id) [] =
    ({| trace := []; network := [] |},
     Done (Some ("{" ++ quote "_id" ++ ":0," ++
                 quote "short_message" ++ ":" ++ quote "disk full" ++ "," ++
                 quote "version" ++ ":" ++ quote "1.0" ++ "," ++
                 quote "host" ++ ":" ++ quote "localhost" ++ "," ++
                 quote "timestamp" ++ ":1700000000.123," ++
                 quote "facility" ++ ":" ++ quote "node.js" ++ "}")%string)) /\
  run (on_gelf_log (sample_env codec_ok) (Some event_with_zero_id)
         (Some silent_callback)) [] =
    ({| trace := [EvSend deflate_of_empty 12201 "127.0.0.1"; EvCallback None];
        network := [] |}, Done tt) /\
  run (on_gelf_log (sample_env codec_ok) (Some event_with_text_id)
         (Some silent_callback)) [] =
    ({| trace := [EvError (Error "_id is not allowed");
                  EvSend deflate_of_empty 12201 "127.0.0.1";
                  EvCallback None];
        network := [] |}, Done tt).
Proof. repeat split. Qed.

(** C7 as stated fails: the envelope of the string 'hello' has no version
    (nor host, timestamp or facility). *)
Lemma C7_counterexample :
  ~ exists st json,
      run (sanitizeMsg_json (sample_env codec_ok) (Text "hello")) [] = (st, Done (Some json)) /\
      obj_get json "short_message" = VStr "hello" /\
      obj_get json "version" = VStr "1.0" /\
      (exists host, obj_get json "host" = VStr host /\ is_empty host = false) /\
      (exists t, obj_get json "timestamp" = VNum (Fixed3 t) /\
                 Z.abs (t - clock (sample_env codec_ok)) <= 1000) /\
      obj_get json "facility" = VStr "node.js".
Proof.
  intros (st & json & Hrun & _ & Hversion & _).
  vm_compute in Hrun. injection Hrun as _ <-.
  vm_compute in Hversion. discriminate.
Qed.

(** C7, amended: the string 'hello' is normalized to the text
    [{'short_message':'hello'}] (with JSON double quotes), an envelope with
    [short_message] and no other field; the defaults are filled in for a
    mapping: [{short_message: 'hello'}] gets version '1.0', the host name of
    the machine, the clock reading in seconds and the facility 'node.js'. *)
Theorem C7_text_gets_short_message_only (env : Env) (st : State) :
  sanitizeMsg_json env (Text "hello") st =
    (st, Done (Some [("short_message", VStr "hello")])) /\
  sanitizeMsg env (Text "hello") st =
    (st, Done (Some ("{" ++ quote "short_message" ++ ":" ++ quote "hello" ++ "}")%string)) /\
  sanitizeMsg_json env (Fields [("short_message", VStr "hello")]) st =
    (st, Done (Some [("short_message", VStr "hello");
                     ("version", VStr "1.0");
                     ("host", VStr (hostname env));
                     ("timestamp", VNum (Fixed3 (clock env)));
                     ("facility", VStr "node.js")])).
Proof. repeat split. Qed.

(** C9 as stated fails: a mapping that contains all four fields, with 0 as
    its timestamp, is serialized with the clock reading of each run. *)
Lemma C9_counterexample :
  forallb (obj_has fields_with_zero_timestamp)
    ["version"; "host"; "timestamp"; "facility"]%string = true /\
  run (sanitizeMsg (sample_env codec_ok) event_with_zero_timestamp) [] <>
  run (sanitizeMsg (at_time (sample_env codec_ok) 1700000060000 "localhost")
         event_with_zero_timestamp) [].
Proof.
  split; [reflexivity|].
  intros H. vm_compute in H. discriminate.
Qed.

(** C9, amended: when the mapping brings a host and a timestamp with truthy
    values (a non-empty string, a number other than 0), the result of
    normalization is the same at any clock reading and under any host name,
    whatever the mapping holds as version and facility. *)
Theorem C9_populated_input_is_deterministic (env : Env) (props : Obj)
    (now : Z) (host : string) (st : State) :
  truthy (obj_get props "host") = true ->
  truthy (obj_get props "timestamp") = true ->
  sanitizeMsg (at_time env now host) (Fields props) st =
  sanitizeMsg env (Fields props) st.
Proof.
  intros Hh Ht.
  unfold sanitizeMsg, sanitizeMsg_json, bind, emitError, fill_defaults.
  rewrite Hh, Ht. reflexivity.
Qed.

Lemma C9_populated_input_is_deterministic_witness :
  sanitizeMsg (at_time (sample_env codec_ok) 1700000060000 "other-host")
    event_with_host_and_time {| trace := []; network := [] |} =
  sanitizeMsg (sample_env codec_ok) event_with_host_and_time
    {| trace := []; network := [] |}.
Proof.
  apply C9_populated_input_is_deterministic; reflexivity.
Defined.

(** ** The transport: properties *)

(** A series of three sends whose second one fails, step by step. *)
Lemma send_three_second_fails (env : Env) (p0 p1 p2 : Buffer)
    (result : option JsError -> bool) (e : JsError)
    (rest : list (option JsError)) :
  run (send env (Packets [p0; p1; p2]) (caller_callback result))
      (None :: Some e :: rest) =
  if result (Some e)
  then if errorListeners env
       then ({| trace := [EvSend p0 (graylogPort (config env)) (graylogHostname (config env));
                          EvSend p1 (graylogPort (config env)) (graylogHostname (config env));
                          EvCallback (Some e); EvError e];
                network := rest |}, Done tt)
       else ({| trace := [EvSend p0 (graylogPort (config env)) (graylogHostname (config env));
                          EvSend p1 (graylogPort (config env)) (graylogHostname (config env));
                          EvCallback (Some e)];
                network := rest |}, Thrown e)
  else ({| trace := [EvSend p0 (graylogPort (config env)) (graylogHostname (config env));
                     EvSend p1 (graylogPort (config env)) (graylogHostname (config env));
                     EvCallback (Some e)];
           network := rest |}, Done tt).
Proof.
  run_pipeline.
  destruct (result (Some e)); [destruct (errorListeners env)|]; reflexivity.
Qed.

(** Of a message of three chunks whose second send fails, exactly the
    first two chunks are sent, in order; the third send is never issued (its
    result stays unused); the completion callback is called once, with the
    error, and the error channel carries nothing but that error, at most
    once. *)
Lemma second_failure_stops_series (env : Env) (p0 p1 p2 : Buffer)
    (result : option JsError -> bool) (e : JsError)
    (rest : list (option JsError)) :
  let final :=
    fst (run (send env (Packets [p0; p1; p2]) (caller_callback result))
             (None :: Some e :: rest)) in
  sends (trace final) = [p0; p1] /\
  network final = rest /\
  callbacks (trace final) = [Some e] /\
  (errors (trace final) = [] \/ errors (trace final) = [e]).
Proof.
  intros final. subst final. rewrite send_three_second_fails.
  destruct (result (Some e)); [destruct (errorListeners env)|]; simpl; auto.
Qed.

(** C5 (evaluated at any message of three chunks whose second send fails
    with an error [e]): chunks 0 and 1 are sent and chunk 2 is not, but the
    error is not surfaced on the error channel: with a completion callback
    that returns nothing it reaches that callback only, and with the default
    callback it reaches nobody. *)
Theorem C5_second_failure_is_not_published (env : Env) (p0 p1 p2 : Buffer)
    (e : JsError) (rest : list (option JsError)) :
  run (send env (Packets [p0; p1; p2]) silent_callback) (None :: Some e :: rest) =
    ({| trace := [send_event env p0; send_event env p1; EvCallback (Some e)];
        network := rest |}, Done tt) /\
  run (send env (Packets [p0; p1; p2]) noop) (None :: Some e :: rest) =
    ({| trace := [send_event env p0; send_event env p1]; network := rest |}, Done tt).
Proof. split; reflexivity. Qed.

(** A failed send of a single datagram: the callback is told, and the error
    channel is told only when what the callback returned is truthy. *)
Lemma send_failure_reaches_channel_iff (env : Env) (m : Buffer)
    (result : option JsError -> bool) (e : JsError) :
  errorListeners env = true ->
  callbacks (trace (fst (run (send env (Single m) (caller_callback result)) [Some e]))) = [Some e] /\
  errors (trace (fst (run (send env (Single m) (caller_callback result)) [Some e]))) =
    if result (Some e) then [e] else [].
Proof.
  intros Hl.
  run_pipeline. rewrite Hl.
  destruct (result (Some e)); simpl; auto.
Qed.

(** [compress] on its own hands a codec failure to its callback and then to
    the error channel. *)
Lemma compress_reports_both (env : Env) (msg : string) (e : JsError)
    (result : option JsError -> bool) :
  deflate env msg = inl e -> errorListeners env = true ->
  run (compress env msg (fun err _ => caller_callback result err ;;; ret tt)) [] =
  ({| trace := [EvCallback (Some e); EvError e]; network := [] |}, Done tt).
Proof.
  intros Hd Hl.
  unfold run, compress, caller_callback, emitError, bind, log, ret.
  rewrite Hd, Hl. reflexivity.
Qed.

(** C6 (evaluated on the three kinds of failure, with a subscriber on the
    error channel and a callback that returns nothing):
    - a failed UDP send reaches the callback and is not published;
    - a codec failure inside the pipeline ends in a [TypeError] thrown from
      [maybeChunkMessage]: neither the callback nor the channel sees it;
    - a rejected [_id] is published, and the callback is later told of
      success. *)
Theorem C6_failures_not_reported_twice :
  run (send (sample_env codec_ok) (Single deflate_of_empty) silent_callback)
      [Some (Error "send EPERM")] =
    ({| trace := [EvSend deflate_of_empty 12201 "127.0.0.1";
                  EvCallback (Some (Error "send EPERM"))];
        network := [] |}, Done tt) /\
  run (on_gelf_message (sample_env codec_failing) "disk full" (Some silent_callback)) [] =
    ({| trace := []; network := [] |},
     Thrown (TypeError "Cannot read properties of undefined (reading 'length')")) /\
  run (on_gelf_log (sample_env codec_ok) (Some event_with_text_id) (Some silent_callback)) [] =
    ({| trace := [EvError (Error "_id is not allowed");
                  EvSend deflate_of_empty 12201 "127.0.0.1";
                  EvCallback None];
        network := [] |}, Done tt).
Proof. repeat split. Qed.

(** ** More on the chunker *)

Lemma byte_to_number_toUint8 (n : Z) : byte_to_number (toUint8 n) = n mod 256.
Proof.
  unfold byte_to_number, toUint8.
  assert (Hr : 0 <= n mod 256 < 256) by (apply Z.mod_pos_bound; lia).
  destruct (Byte.of_N (Z.to_N (n mod 256))) as [b|] eqn:E.
  - apply Byte.to_of_N in E. rewrite E. lia.
  - apply Byte.of_N_None_iff in E. lia.
Qed.

(** A window of [chunkSize] entries starting inside the array. *)
Lemma js_slice_window {A : Type} (l : list A) (a size : Z) :
  0 <= a <= Z.of_nat (length l) -> 0 <= size ->
  js_slice l a (a + size) = firstn (Z.to_nat size) (skipn (Z.to_nat a) l).
Proof.
  intros Ha Hs. rewrite js_slice_in_range by lia.
  destruct (Z.min_spec (a + size) (Z.of_nat (length l))) as [[Hlt ->]|[Hge ->]].
  - f_equal. lia.
  - rewrite !firstn_all2; try reflexivity; rewrite length_skipn; lia.
Qed.

(** The loop of [getChunks], piece by piece: the [k]-th piece it appends is
    the window of [chunkSize] entries that starts [k] steps after [index],
    and there are as many pieces as steps needed to pass the end. *)
Lemma getChunks_loop_windows (fuel : nat) :
  forall (buf : Buffer) (chunkSize index : Z) (res : list (list Z)),
    0 < chunkSize -> 0 <= index ->
    Z.max 0 (Z.of_nat (length buf) - index) + chunkSize <= chunkSize * Z.of_nat fuel ->
    exists chunks,
      getChunks_loop fuel buf chunkSize index res = Some (res ++ chunks) /\
      Z.of_nat (length chunks) =
        (Z.max 0 (Z.of_nat (length buf) - index) + chunkSize - 1) / chunkSize /\
      forall k, (k < length chunks)%nat ->
        nth_error chunks k =
        Some (firstn (Z.to_nat chunkSize)
                (skipn (Z.to_nat (index + Z.of_nat k * chunkSize))
                   (map byte_to_number buf))).
Proof.
  induction fuel as [|fuel IH]; intros buf cs index res Hcs Hidx Hfuel.
  - exfalso. rewrite Z.mul_0_r in Hfuel. lia.
  - simpl. destruct (index <? Z.of_nat (length buf)) eqn:E.
    + apply Z.ltb_lt in E.
      destruct (IH buf cs (index + cs)
                  (res ++ [js_slice (map byte_to_number buf) index (index + cs)]))
        as (chunks & Hrun & Hcount & Hnth); try lia.
      { rewrite Nat2Z.inj_succ, Z.mul_succ_r in Hfuel.
        rewrite Z.max_r in Hfuel by lia.
        destruct (Z.max_spec 0 (Z.of_nat (length buf) - (index + cs))) as [[_ ->]|[_ ->]];
          [lia|].
        assert (0 < Z.of_nat fuel) by nia. nia. }
      exists (js_slice (map byte_to_number buf) index (index + cs) :: chunks).
      split; [|split].
      * rewrite Hrun, <- app_assoc. reflexivity.
      * cbn [length]. rewrite Nat2Z.inj_succ, Hcount.
        rewrite (Z.max_r 0 (Z.of_nat (length buf) - index)) by lia.
        destruct (Z.max_spec 0 (Z.of_nat (length buf) - (index + cs))) as [[Hlt ->]|[Hge ->]].
        -- replace (Z.of_nat (length buf) - index + cs - 1)
             with (Z.of_nat (length buf) - (index + cs) + cs - 1 + 1 * cs) by lia.
           rewrite Z.div_add by lia. lia.
        -- rewrite Z.div_small by lia.
           replace (Z.of_nat (length buf) - index + cs - 1)
             with (Z.of_nat (length buf) - index - 1 + 1 * cs) by lia.
           rewrite Z.div_add by lia. rewrite Z.div_small by lia. lia.
      * intros [|k] Hk.
        -- cbn [nth_error]. rewrite js_slice_window by (rewrite ?length_map; lia).
           do 3 f_equal. lia.
        -- cbn [nth_error]. cbn [length] in Hk. rewrite Hnth by lia.
           do 3 f_equal. lia.
    + apply Z.ltb_ge in E. exists []. split; [|split].
      * now rewrite app_nil_r.
      * rewrite Z.max_l by lia. rewrite Z.div_small by lia. reflexivity.
      * intros k Hk. simpl in Hk. lia.
Qed.

(** Above the limit the result is whatever [getChunks] and [createPackets]
    make of the buffer. *)
Lemma maybeChunkMessage_over_limit (cfg : Config) (random : Q) (fuel : nat)
    (buf : Buffer) (limit : Z) :
  chunk_limit cfg = Some limit -> limit < Z.of_nat (length buf) ->
  maybeChunkMessage cfg random fuel buf =
  option_map (fun chunks => Packets (createPackets random chunks))
    (getChunks fuel buf limit).
Proof.
  intros Hlimit Hlong. apply Z.ltb_lt in Hlong.
  unfold chunk_limit in Hlimit. unfold maybeChunkMessage.
  destruct (String.eqb (connection cfg) "wan").
  - injection Hlimit as ->. rewrite Hlong. reflexivity.
  - destruct (String.eqb (connection cfg) "lan"); [|discriminate].
    injection Hlimit as ->. rewrite Hlong. reflexivity.
Qed.

Lemma Buffer_from_window (buf : Buffer) (n m : nat) :
  Buffer_from (firstn n (skipn m (map byte_to_number buf))) = firstn n (skipn m buf).
Proof.
  rewrite skipn_map, firstn_map. apply Buffer_from_bytes.
Qed.

(** X1: with a positive chunk size and enough steps [getChunks] returns,
    and its pieces, put end to end, are the bytes of the buffer; no piece is
    empty and none is longer than the chunk size. *)
Theorem X1_getChunks_cuts_the_buffer (fuel : nat) (buf : Buffer) (chunkSize : Z) :
  0 < chunkSize ->
  Z.of_nat (length buf) + chunkSize <= chunkSize * Z.of_nat fuel ->
  exists chunks,
    getChunks fuel buf chunkSize = Some chunks /\
    Buffer_from (concat chunks) = buf /\
    Forall (fun c => 0 < Z.of_nat (length c) <= chunkSize) chunks.
Proof.
  intros Hcs Hfuel.
  destruct (getChunks_spec fuel buf chunkSize Hcs Hfuel) as (chunks & Hrun & Hcat & Hall).
  exists chunks. repeat split; try assumption.
  rewrite Hcat. apply Buffer_from_bytes.
Qed.

Lemma X1_getChunks_cuts_the_buffer_witness :
  exists chunks,
    getChunks 4 [x01; x02; x03; x04; x05] 2 = Some chunks /\
    Buffer_from (concat chunks) = [x01; x02; x03; x04; x05] /\
    Forall (fun c => 0 < Z.of_nat (length c) <= 2) chunks.
Proof.
  apply X1_getChunks_cuts_the_buffer; simpl; lia.
Defined.

(** X2: [getChunks] returns ceil(length / chunkSize) pieces, and the
    [k]-th of them is the window of [chunkSize] bytes that starts at byte
    [k * chunkSize] (shorter only where the buffer ends). *)
Theorem X2_getChunks_windows (fuel : nat) (buf : Buffer) (chunkSize : Z) :
  0 < chunkSize ->
  Z.of_nat (length buf) + chunkSize <= chunkSize * Z.of_nat fuel ->
  exists chunks,
    getChunks fuel buf chunkSize = Some chunks /\
    Z.of_nat (length chunks) = (Z.of_nat (length buf) + chunkSize - 1) / chunkSize /\
    forall k, (k < length chunks)%nat ->
      option_map Buffer_from (nth_error chunks k) =
      Some (firstn (Z.to_nat chunkSize) (skipn (k * Z.to_nat chunkSize) buf)).
Proof.
  intros Hcs Hfuel.
  destruct (getChunks_loop_windows fuel buf chunkSize 0 [] Hcs (Z.le_refl 0))
    as (chunks & Hrun & Hcount & Hnth).
  - rewrite Z.sub_0_r, Z.max_r by lia. exact Hfuel.
  - exists chunks. split; [exact Hrun|split].
    + rewrite Hcount, Z.sub_0_r, Z.max_r by lia. reflexivity.
    + intros k Hk. rewrite (Hnth k Hk). cbn [option_map].
      rewrite Buffer_from_window. do 3 f_equal. nia.
Qed.

Lemma X2_getChunks_windows_witness :
  exists chunks,
    getChunks 4 [x01; x02; x03; x04; x05] 2 = Some chunks /\
    Z.of_nat (length chunks) = (Z.of_nat 5 + 2 - 1) / 2 /\
    forall k, (k < length chunks)%nat ->
      option_map Buffer_from (nth_error chunks k) =
      Some (firstn (Z.to_nat 2) (skipn (k * Z.to_nat 2) [x01; x02; x03; x04; x05])).
Proof.
  apply (X2_getChunks_windows 4 [x01; x02; x03; x04; x05] 2); simpl; lia.
Defined.

(** X3: with a limit of zero or less for the connection kind in use, a
    payload that is not empty never comes back from [maybeChunkMessage],
    however long the loop is left to run. *)
Theorem X3_nonpositive_limit_never_returns (cfg : Config) (random : Q)
    (fuel : nat) (buf : Buffer) (limit : Z) :
  chunk_limit cfg = Some limit -> limit <= 0 -> buf <> [] ->
  maybeChunkMessage cfg random fuel buf = None.
Proof.
  intros Hlimit Hneg Hbuf.
  assert (Hlen : 0 < Z.of_nat (length buf)) by (destruct buf; [congruence|simpl; lia]).
  rewrite (maybeChunkMessage_over_limit cfg random fuel buf limit Hlimit) by lia.
  unfold getChunks. rewrite getChunks_loop_diverges by lia. reflexivity.
Qed.

Lemma X3_nonpositive_limit_never_returns_witness :
  maybeChunkMessage
    (assign_options defaults
       {| opt_graylogPort := None; opt_graylogHostname := None;
          opt_connection := None;
          opt_maxChunkSizeWan := Some 0; opt_maxChunkSizeLan := None |})
    (1 # 2) 1000 [x78; x9c] = None.
Proof.
  apply (X3_nonpositive_limit_never_returns _ _ _ _ 0); [reflexivity | lia | discriminate].
Defined.

(** X4: a payload whose length does not exceed the limit of the connection
    kind in use comes back as it is, one unframed buffer, for either kind
    and without entering the loop. *)
Theorem X4_within_limit_is_not_chunked (cfg : Config) (random : Q) (fuel : nat)
    (buf : Buffer) (limit : Z) :
  chunk_limit cfg = Some limit -> Z.of_nat (length buf) <= limit ->
  maybeChunkMessage cfg random fuel buf = Some (Single buf).
Proof.
  intros Hlimit Hshort. apply Z.ltb_ge in Hshort.
  unfold chunk_limit in Hlimit. unfold maybeChunkMessage.
  destruct (String.eqb (connection cfg) "wan") eqn:Ewan.
  - injection Hlimit as ->. rewrite Hshort. simpl.
    destruct (String.eqb (connection cfg) "lan") eqn:Elan; [|reflexivity].
    apply String.eqb_eq in Ewan, Elan. congruence.
  - destruct (String.eqb (connection cfg) "lan"); [|discriminate].
    injection Hlimit as ->. rewrite Hshort. reflexivity.
Qed.

Lemma X4_within_limit_is_not_chunked_witness :
  maybeChunkMessage
    (assign_options defaults
       {| opt_graylogPort := None; opt_graylogHostname := None;
          opt_connection := Some "lan"%string;
          opt_maxChunkSizeWan := None; opt_maxChunkSizeLan := Some 100 |})
    (1 # 2) 0 (payload_of 100) = Some (Single (payload_of 100)).
Proof.
  apply (X4_within_limit_is_not_chunked _ _ _ _ 100); [reflexivity|].
  unfold payload_of. rewrite repeat_length. lia.
Defined.

Lemma createPackets_two (random : Q) (c0 c1 : list Z) :
  createPackets random [c0; c1] =
  [ [x1e; x0f; toUint8 (draw_msgId random); x00; x02] ++ Buffer_from c0;
    [x1e; x0f; toUint8 (draw_msgId random); x01; x02] ++ Buffer_from c1 ].
Proof. reflexivity. Qed.

(** C4: on a WAN connection with a limit of 1420, a payload of exactly 1420
    bytes leaves as one datagram, the payload itself, with no header; a
    payload of 1421 bytes leaves as two datagrams, each starting with the
    magic bytes, the message-id byte, its index (0, then 1) and the count 2,
    followed by its fragment: the first 1420 bytes of the payload, then the
    one byte left. *)
Theorem C4_wan_threshold (cfg : Config) (random : Q) (fuel : nat) :
  connection cfg = "wan"%string -> maxChunkSizeWan cfg = 1420 ->
  (forall buf : Buffer, length buf = 1420%nat ->
     option_map datagrams (maybeChunkMessage cfg random fuel buf) = Some [buf]) /\
  (forall buf : Buffer, length buf = 1421%nat -> (3 <= fuel)%nat ->
     option_map datagrams (maybeChunkMessage cfg random fuel buf) =
       Some [ [x1e; x0f; toUint8 (draw_msgId random); x00; x02] ++ firstn 1420 buf;
              [x1e; x0f; toUint8 (draw_msgId random); x01; x02] ++ skipn 1420 buf ] /\
     length (firstn 1420 buf) = 1420%nat /\
     length (skipn 1420 buf) = 1%nat /\
     firstn 1420 buf ++ skipn 1420 buf = buf).
Proof.
  intros Hwan Hmax. split.
  - intros buf Hlen. unfold maybeChunkMessage.
    rewrite Hwan, Hmax, Hlen. reflexivity.
  - intros buf Hlen Hfuel.
    assert (Hlimit : chunk_limit cfg = Some 1420).
    { unfold chunk_limit. rewrite Hwan, Hmax. reflexivity. }
    destruct (getChunks_loop_windows fuel buf 1420 0 [] ltac:(lia) (Z.le_refl 0))
      as (chunks & Hrun & Hcount & Hnth).
    { rewrite Hlen. lia. }
    rewrite Hlen in Hcount.
    change ((Z.max 0 (Z.of_nat 1421 - 0) + 1420 - 1) / 1420) with 2 in Hcount.
    destruct chunks as [|c0 [|c1 [|c2 chunks]]]; cbn [length] in Hcount; try lia.
    pose proof (Hnth 0%nat ltac:(simpl; lia)) as H0.
    pose proof (Hnth 1%nat ltac:(simpl; lia)) as H1.
    cbn [nth_error] in H0, H1.
    assert (E0 : c0 = firstn (Z.to_nat 1420)
                        (skipn (Z.to_nat (0 + Z.of_nat 0 * 1420)) (map byte_to_number buf)))
      by congruence.
    assert (E1 : c1 = firstn (Z.to_nat 1420)
                        (skipn (Z.to_nat (0 + Z.of_nat 1 * 1420)) (map byte_to_number buf)))
      by congruence.
    clear H0 H1 Hnth. subst c0 c1.
    repeat split.
    + rewrite (maybeChunkMessage_over_limit cfg random fuel buf 1420 Hlimit)
        by (rewrite Hlen; lia).
      unfold getChunks. rewrite Hrun.
      change ([] ++ ?l) with l. cbn [option_map datagrams].
      rewrite createPackets_two, !Buffer_from_window.
      change (Z.to_nat 1420) with 1420%nat.
      change (Z.to_nat (0 + Z.of_nat 0 * 1420)) with 0%nat.
      change (Z.to_nat (0 + Z.of_nat 1 * 1420)) with 1420%nat.
      change (skipn 0 buf) with buf.
      rewrite firstn_all2 with (l := skipn 1420 buf);
        [reflexivity|rewrite length_skipn, Hlen; lia].
    + rewrite length_firstn, Hlen. reflexivity.
    + rewrite length_skipn, Hlen. reflexivity.
    + apply firstn_skipn.
Qed.

Lemma C4_wan_threshold_witness :
  option_map datagrams (maybeChunkMessage defaults (1 # 2) 3 (payload_of 1420)) =
    Some [payload_of 1420] /\
  option_map datagrams (maybeChunkMessage defaults (1 # 2) 3 (payload_of 1421)) =
    Some [ [x1e; x0f; toUint8 (draw_msgId (1 # 2)); x00; x02] ++
             firstn 1420 (payload_of 1421);
           [x1e; x0f; toUint8 (draw_msgId (1 # 2)); x01; x02] ++
             skipn 1420 (payload_of 1421) ] /\
  length (firstn 1420 (payload_of 1421)) = 1420%nat /\
  length (skipn 1420 (payload_of 1421)) = 1%nat /\
  firstn 1420 (payload_of 1421) ++ skipn 1420 (payload_of 1421) = payload_of 1421.
Proof.
  destruct (C4_wan_threshold defaults (1 # 2) 3 eq_refl eq_refl) as [Hone Htwo].
  split.
  - apply Hone. unfold payload_of. apply repeat_length.
  - apply Htwo; [unfold payload_of; apply repeat_length | lia].
Defined.

(** X5: what goes on the wire for a payload above the limit: there are
    ceil(length / limit) datagrams, and the [k]-th is the header for index
    [k] followed by the [limit] bytes of the payload that start at byte
    [k * limit]. *)
Theorem X5_datagram_contents (cfg : Config) (random : Q) (fuel : nat)
    (buf : Buffer) (limit : Z) :
  chunk_limit cfg = Some limit ->
  0 < limit < Z.of_nat (length buf) ->
  Z.of_nat (length buf) + limit <= limit * Z.of_nat fuel ->
  exists packets,
    maybeChunkMessage cfg random fuel buf = Some (Packets packets) /\
    Z.of_nat (length packets) = (Z.of_nat (length buf) + limit - 1) / limit /\
    forall k, (k < length packets)%nat ->
      nth_error packets k =
      Some (chunk_header random (Z.of_nat k) (Z.of_nat (length packets)) ++
            firstn (Z.to_nat limit) (skipn (k * Z.to_nat limit) buf)).
Proof.
  intros Hlimit [Hpos Hlong] Hfuel.
  destruct (getChunks_loop_windows fuel buf limit 0 [] Hpos (Z.le_refl 0))
    as (chunks & Hrun & Hcount & Hnth).
  { rewrite Z.sub_0_r, Z.max_r by lia. exact Hfuel. }
  rewrite Z.sub_0_r, Z.max_r in Hcount by lia.
  exists (createPackets random chunks). split; [|split].
  - rewrite (maybeChunkMessage_over_limit cfg random fuel buf limit Hlimit Hlong).
    unfold getChunks. rewrite Hrun. reflexivity.
  - rewrite createPackets_length. exact Hcount.
  - intros k Hk. rewrite createPackets_length in *.
    rewrite (createPackets_nth random chunks k _ (Hnth k Hk)).
    rewrite Buffer_from_window. do 4 f_equal. nia.
Qed.

Lemma X5_datagram_contents_witness :
  exists packets,
    maybeChunkMessage defaults (1 # 2) 3 (payload_of 1421) = Some (Packets packets) /\
    Z.of_nat (length packets) = (Z.of_nat (length (payload_of 1421)) + 1420 - 1) / 1420 /\
    forall k, (k < length packets)%nat ->
      nth_error packets k =
      Some (chunk_header (1 # 2) (Z.of_nat k) (Z.of_nat (length packets)) ++
            firstn (Z.to_nat 1420) (skipn (k * Z.to_nat 1420) (payload_of 1421))).
Proof.
  apply (X5_datagram_contents defaults (1 # 2) 3 (payload_of 1421) 1420).
  - reflexivity.
  - unfold payload_of. rewrite repeat_length. lia.
  - unfold payload_of. rewrite repeat_length. lia.
Defined.

(** X6: the round trip the code supports: dropping the first five bytes
    of every datagram of a chunked payload and concatenating the rest in
    order gives the payload back. *)
Theorem X6_reassembly_after_five_bytes (cfg : Config) (random : Q) (fuel : nat)
    (buf : Buffer) (limit : Z) :
  chunk_limit cfg = Some limit ->
  0 < limit < Z.of_nat (length buf) ->
  Z.of_nat (length buf) + limit <= limit * Z.of_nat fuel ->
  exists packets,
    maybeChunkMessage cfg random fuel buf = Some (Packets packets) /\
    reassemble 5 packets = buf.
Proof. apply roundtrip_five_byte_header. Qed.

Lemma X6_reassembly_after_five_bytes_witness :
  exists packets,
    maybeChunkMessage defaults (1 # 2) 3 (payload_of 1421) = Some (Packets packets) /\
    reassemble 5 packets = payload_of 1421.
Proof.
  apply (X6_reassembly_after_five_bytes defaults (1 # 2) 3 (payload_of 1421) 1420).
  - reflexivity.
  - unfold payload_of. rewrite repeat_length. lia.
  - unfold payload_of. rewrite repeat_length. lia.
Defined.

(** X7: the header fields of the [k]-th packet are single bytes: the
    drawn message id, the index [k] and the number of chunks, each reduced
    modulo 256.  So the index starts again at 0 after 256 packets and a
    message of 256 chunks announces a count of 0. *)
Theorem X7_header_fields_wrap (random : Q) (chunks : list (list Z)) (k : nat)
    (packet : Buffer) :
  nth_error (createPackets random chunks) k = Some packet ->
  header_magic packet = [x1e; x0f] /\
  option_map byte_to_number (header_msgId packet) = Some (draw_msgId random mod 256) /\
  option_map byte_to_number (header_index packet) = Some (Z.of_nat k mod 256) /\
  option_map byte_to_number (header_count packet) =
    Some (Z.of_nat (length chunks) mod 256).
Proof.
  intros Hk.
  rewrite createPackets_frames, forEach_index_nth in Hk.
  destruct (nth_error chunks k) as [chunk|]; [|discriminate].
  cbn [option_map] in Hk. injection Hk as <-.
  unfold header_magic, header_msgId, header_index, header_count.
  cbn [app firstn nth_error option_map].
  rewrite !byte_to_number_toUint8. repeat split.
Qed.

Lemma X7_header_fields_wrap_witness :
  header_magic [x1e; x0f; xbf; x00; x00; x07] = [x1e; x0f] /\
  option_map byte_to_number (header_msgId [x1e; x0f; xbf; x00; x00; x07]) =
    Some (draw_msgId (1 # 2) mod 256) /\
  option_map byte_to_number (header_index [x1e; x0f; xbf; x00; x00; x07]) =
    Some (Z.of_nat 256 mod 256) /\
  option_map byte_to_number (header_count [x1e; x0f; xbf; x00; x00; x07]) =
    Some (Z.of_nat (length (repeat [7] 512)) mod 256).
Proof.
  apply (X7_header_fields_wrap (1 # 2) (repeat [7] 512) 256).
  vm_compute. reflexivity.
Defined.

(** X8: every datagram of a chunked payload is longer than its 5-byte
    header and at most 5 bytes longer than the configured limit. *)
Theorem X8_datagram_sizes (cfg : Config) (random : Q) (fuel : nat)
    (buf : Buffer) (limit : Z) :
  chunk_limit cfg = Some limit ->
  0 < limit < Z.of_nat (length buf) ->
  Z.of_nat (length buf) + limit <= limit * Z.of_nat fuel ->
  exists packets,
    maybeChunkMessage cfg random fuel buf = Some (Packets packets) /\
    Forall (fun p => 5 < Z.of_nat (length p) <= limit + 5) packets.
Proof.
  intros Hlimit Hlen Hfuel.
  destruct (maybeChunkMessage_chunks cfg random fuel buf limit Hlimit Hlen Hfuel)
    as (chunks & Hrun & _ & Hall).
  exists (createPackets random chunks). split; [exact Hrun|].
  apply Forall_forall. intros p Hin.
  rewrite createPackets_frames in Hin.
  destruct (forEach_index_In _ _ _ _ Hin) as (chunk & index & Hchunk & ->).
  rewrite Forall_forall in Hall. specialize (Hall chunk Hchunk). cbv beta in Hall.
  rewrite length_app, chunk_header_bytes. unfold Buffer_from. rewrite length_map.
  cbn [length]. lia.
Qed.

Lemma X8_datagram_sizes_witness :
  exists packets,
    maybeChunkMessage defaults (1 # 2) 3 (payload_of 1421) = Some (Packets packets) /\
    Forall (fun p => 5 < Z.of_nat (length p) <= 1420 + 5) packets.
Proof.
  apply (X8_datagram_sizes defaults (1 # 2) 3 (payload_of 1421) 1420).
  - reflexivity.
  - unfold payload_of. rewrite repeat_length. lia.
  - unfold payload_of. rewrite repeat_length. lia.
Defined.

Lemma round_half_even_upper (p q : Z) :
  0 < q -> 2 * q * round_half_even p q <= 2 * p + q.
Proof.
  intros Hq. unfold round_half_even.
  pose proof (Z.div_mod p q ltac:(lia)) as Hdm.
  pose proof (Z.mod_pos_bound p q Hq) as Hr.
  destruct (2 * (p mod q) <? q) eqn:E1; [apply Z.ltb_lt in E1; nia|].
  apply Z.ltb_ge in E1.
  destruct (q <? 2 * (p mod q)) eqn:E2; [apply Z.ltb_lt in E2; nia|].
  apply Z.ltb_ge in E2.
  destruct (Z.even (p / q)); nia.
Qed.

Lemma round_half_even_nonneg (p q : Z) :
  0 <= p -> 0 < q -> 0 <= round_half_even p q.
Proof.
  intros Hp Hq. unfold round_half_even.
  assert (0 <= p / q) by (apply Z.div_pos; lia).
  destruct (2 * (p mod q) <? q); [lia|].
  destruct (q <? 2 * (p mod q)); [lia|].
  destruct (Z.even (p / q)); lia.
Qed.

(** A quotient below [2^b] lies in a binade below [b]. *)
Lemma binade_upper (n d b : Z) :
  0 < n -> 0 < d -> 0 <= b -> n < d * 2 ^ b -> binade n d < b.
Proof.
  intros Hn Hd Hb Hlt. unfold binade.
  destruct (Z.log2_spec n Hn) as [Hn1 _].
  destruct (Z.log2_spec d Hd) as [_ Hd2].
  pose proof (Z.log2_nonneg n) as Hln. pose proof (Z.log2_nonneg d) as Hld.
  set (ln := Z.log2 n) in *. set (ld := Z.log2 d) in *.
  assert (Hs : ln - ld <= b).
  { assert (Hpow : 2 ^ ln < 2 ^ (Z.succ ld + b)).
    { rewrite Z.pow_add_r by lia.
      assert (0 < 2 ^ b) by (apply Z.pow_pos_nonneg; lia). nia. }
    apply Z.pow_lt_mono_r_iff in Hpow; lia. }
  destruct (Z.eq_dec (ln - ld) b) as [Heq|Hne].
  - rewrite Heq. destruct (0 <=? b) eqn:E0; [|apply Z.leb_gt in E0; lia].
    destruct (d * 2 ^ b <=? n) eqn:E; [apply Z.leb_le in E; lia|lia].
  - destruct (if 0 <=? ln - ld then d * 2 ^ (ln - ld) <=? n
              else d <=? n * 2 ^ (- (ln - ld))); lia.
Qed.

(** X9: for every draw from 0 up to the largest double below 1, the
    message id, computed with the product rounded to a double as the code
    does, has eight decimal digits: it lies between 10000000 and 99999998. *)
Theorem X9_msgId_range (random : Q) :
  (0 <= random)%Q -> (random <= 9007199254740991 # 9007199254740992)%Q ->
  10000000 <= draw_msgId random <= 99999998.
Proof.
  intros Hlo Hhi. unfold draw_msgId, round_to_double.
  change (99999999 - 10000000) with 89999999.
  destruct random as [N D]. unfold Qle in Hlo, Hhi. cbn [Qnum Qden] in Hlo, Hhi.
  cbn [Qmult Qnum Qden inject_Z]. rewrite Pos.mul_1_r.
  rewrite Z.mul_1_r in Hlo.
  destruct (Z.abs (N * 89999999) =? 0) eqn:E0; [cbn; lia|].
  apply Z.eqb_neq in E0.
  assert (HN : 0 < N) by lia.
  rewrite Z.abs_eq in * by lia.
  rewrite (Z.sgn_pos (N * 89999999)) by lia.
  set (n := N * 89999999) in *. set (d := Z.pos D) in *.
  assert (Hd : 0 < d) by (unfold d; lia).
  assert (He : binade n d < 27).
  { apply binade_upper; try lia; change (2 ^ 27) with 134217728; unfold n; nia. }
  set (k := 52 - binade n d) in *.
  assert (Hk : 26 <= k) by lia.
  destruct (0 <=? k) eqn:Ek; [|apply Z.leb_gt in Ek; lia].
  rewrite Z.mul_1_l.
  assert (HP : 67108864 <= 2 ^ k).
  { change 67108864 with (2 ^ 26). apply Z.pow_le_mono_r; lia. }
  set (P := 2 ^ k) in *.
  pose proof (round_half_even_upper (n * P) d Hd) as Hup.
  pose proof (round_half_even_nonneg (n * P) d ltac:(nia) Hd) as Hnn.
  set (m := round_half_even (n * P) d) in *.
  unfold Qfloor. rewrite Z2Pos.id by lia.
  assert (Hm : m < 89999999 * P).
  { destruct (Z_lt_le_dec m (89999999 * P)) as [Hlt|Hge]; [exact Hlt|exfalso].
    assert (HD : d <= 9007199254740992 * (d - N)) by (fold d in Hhi; lia).
    assert (H1 : 2 * P * 89999999 * (d - N) <= d) by (unfold n in Hup; nia).
    assert (H2 : 0 < d - N) by nia.
    nia. }
  assert (0 <= m / P) by (apply Z.div_pos; lia).
  assert (m / P < 89999999) by (apply Z.div_lt_upper_bound; lia).
  lia.
Qed.

Lemma X9_msgId_range_witness : 10000000 <= draw_msgId (1 # 2) <= 99999998.
Proof.
  apply X9_msgId_range; discriminate.
Defined.

(** ** More on the normalizer *)

Lemma obj_get_set (o : Obj) (k k' : string) (v : JsVal) :
  obj_get (obj_set o k v) k' = if String.eqb k k' then v else obj_get o k'.
Proof.
  induction o as [|[k0 w] o IH]; simpl.
  - reflexivity.
  - destruct (String.eqb_spec k0 k) as [->|Hne]; simpl.
    + destruct (String.eqb k k'); reflexivity.
    + rewrite IH. destruct (String.eqb_spec k0 k') as [->|Hne'].
      * destruct (String.eqb_spec k k') as [->|_]; [congruence|reflexivity].
      * reflexivity.
Qed.

Lemma obj_get_absent (o : Obj) (k : string) :
  obj_has o k = false -> obj_get o k = VUndefined.
Proof.
  induction o as [|[k0 w] o IH]; simpl; intros H.
  - reflexivity.
  - apply orb_false_iff in H as [-> H]. auto.
Qed.

Lemma obj_has_app (o o' : Obj) (k : string) :
  obj_has (o ++ o') k = (obj_has o k || obj_has o' k)%bool.
Proof.
  induction o as [|[k0 w] o IH]; simpl.
  - reflexivity.
  - rewrite IH. apply orb_assoc.
Qed.

Lemma obj_has_In (o : Obj) (k : string) :
  obj_has o k = true <-> In k (map fst o).
Proof.
  induction o as [|[k0 w] o IH]; simpl.
  - split; [discriminate|contradiction].
  - rewrite orb_true_iff, IH, String.eqb_eq. reflexivity.
Qed.

(** Writing a property the object does not have appends it. *)
Lemma obj_set_fresh (o : Obj) (k : string) (v : JsVal) :
  obj_has o k = false -> obj_set o k v = o ++ [(k, v)].
Proof.
  induction o as [|[k0 w] o IH]; simpl; intros H.
  - reflexivity.
  - apply orb_false_iff in H as [-> H]. now rewrite IH.
Qed.

Lemma obj_has_set (o : Obj) (k k' : string) (v : JsVal) :
  obj_has (obj_set o k v) k' = (String.eqb k k' || obj_has o k')%bool.
Proof.
  induction o as [|[k0 w] o IH]; simpl.
  - reflexivity.
  - destruct (String.eqb_spec k0 k) as [->|Hne]; simpl.
    + now rewrite orb_assoc, orb_diag.
    + rewrite IH. rewrite !orb_assoc. f_equal. apply orb_comm.
Qed.

(** An assignment to any other name than [__proto__] writes an own
    property. *)
Lemma set_property_plain (json : JsObject) (k : string) (v : JsVal) :
  k <> "__proto__"%string ->
  set_property json k v = {| own := obj_set (own json) k v; proto := proto json |}.
Proof.
  intros Hk. unfold set_property.
  apply String.eqb_neq in Hk. rewrite Hk. reflexivity.
Qed.

Lemma Object_assign_plain (source : Obj) :
  forall target,
    NoDup (map fst source) ->
    obj_has source "__proto__" = false ->
    (forall k, In k (map fst source) -> obj_has (own target) k = false) ->
    Object_assign target source =
    {| own := own target ++ source; proto := proto target |}.
Proof.
  unfold Object_assign.
  induction source as [|[k v] source IH]; intros target Hnd Hproto Hfresh; simpl.
  - rewrite app_nil_r. now destruct target.
  - inversion Hnd as [|? ? Hnotin Hnd']; subst.
    simpl in Hproto. apply orb_false_iff in Hproto as [Hk Hproto].
    rewrite set_property_plain by (now apply String.eqb_neq).
    rewrite IH; cbn [own proto]; try assumption.
    + rewrite obj_set_fresh by (apply Hfresh; now left).
      now rewrite <- app_assoc.
    + intros k' Hk'. rewrite obj_has_set, (Hfresh k') by now right.
      rewrite orb_false_r.
      apply String.eqb_neq. intros ->. contradiction.
Qed.

(** The shallow copy of a mapping without an own [__proto__] key is the
    mapping: same fields, same order, nothing inherited. *)
Lemma Object_assign_copy (props : Obj) :
  NoDup (map fst props) -> obj_has props "__proto__" = false ->
  Object_assign empty_object props = {| own := props; proto := ObjectPrototype |}.
Proof.
  intros Hnd Hproto.
  apply (Object_assign_plain props empty_object Hnd Hproto). reflexivity.
Qed.

(** An own [__proto__] key of the event never becomes an own property of
    the copy: assigning it changes what the copy inherits from. *)
Lemma Object_assign_own_proto (source : Obj) :
  forall target,
    NoDup (map fst source) ->
    obj_has (own target) "__proto__" = false ->
    proto target = ObjectPrototype \/ ~ In "__proto__"%string (map fst source) ->
    obj_has (own (Object_assign target source)) "__proto__" = false.
Proof.
  unfold Object_assign.
  induction source as [|[k v] source IH]; intros target Hnd Hown Hreach; simpl.
  - exact Hown.
  - inversion Hnd as [|? ? Hnotin Hnd']; subst.
    destruct (String.eqb_spec k "__proto__") as [->|Hk].
    + destruct Hreach as [Hobj|Hnot]; [|exfalso; apply Hnot; now left].
      apply IH; [exact Hnd'| |now right].
      unfold set_property, proto_setter_reachable.
      rewrite Hown, Hobj. cbn [String.eqb Ascii.eqb Bool.eqb andb negb].
      destruct v; exact Hown.
    + rewrite set_property_plain by exact Hk.
      apply IH; cbn [own proto]; [exact Hnd'| |].
      * rewrite obj_has_set, Hown, orb_false_r. now apply String.eqb_neq.
      * destruct Hreach as [Hobj|Hnot]; [now left|right].
        intros Hin. apply Hnot. now right.
Qed.

(** What [fill_defaults] leaves under each own key, and above. *)
Lemma fill_defaults_get (env : Env) (msg : Obj) (json : JsObject) (k : string) :
  obj_get (own (fill_defaults env msg json)) k =
  if (String.eqb "facility" k && negb (truthy (obj_get msg "facility")))%bool
  then VStr "node.js"
  else if (String.eqb "timestamp" k && negb (truthy (obj_get msg "timestamp")))%bool
  then VNum (Fixed3 (clock env))
  else if (String.eqb "host" k && negb (truthy (obj_get msg "host")))%bool
  then VStr (hostname env)
  else if (String.eqb "version" k && negb (truthy (obj_get msg "version")))%bool
  then VStr "1.0"
  else obj_get (own json) k.
Proof.
  unfold fill_defaults.
  destruct (truthy (obj_get msg "facility")), (truthy (obj_get msg "timestamp")),
    (truthy (obj_get msg "host")), (truthy (obj_get msg "version"));
    cbn [negb]; rewrite ?set_property_plain by discriminate; cbn [own proto];
    rewrite ?obj_get_set, ?andb_false_r, ?andb_true_r; reflexivity.
Qed.

Lemma fill_defaults_has (env : Env) (msg : Obj) (json : JsObject) (k : string) :
  ~ In k defaulted_keys ->
  obj_has (own (fill_defaults env msg json)) k = obj_has (own json) k.
Proof.
  intros Hk. unfold defaulted_keys in Hk. cbn [In] in Hk.
  assert (String.eqb "version" k = false) by (apply String.eqb_neq; tauto).
  assert (String.eqb "host" k = false) by (apply String.eqb_neq; tauto).
  assert (String.eqb "timestamp" k = false) by (apply String.eqb_neq; tauto).
  assert (String.eqb "facility" k = false) by (apply String.eqb_neq; tauto).
  unfold fill_defaults.
  destruct (truthy (obj_get msg "facility")), (truthy (obj_get msg "timestamp")),
    (truthy (obj_get msg "host")), (truthy (obj_get msg "version"));
    cbn [negb]; rewrite ?set_property_plain by discriminate; cbn [own proto];
    rewrite ?obj_has_set;
    repeat match goal with H : String.eqb _ k = false |- _ => rewrite H; clear H end;
    reflexivity.
Qed.

Lemma fill_defaults_proto (env : Env) (msg : Obj) (json : JsObject) :
  proto (fill_defaults env msg json) = proto json.
Proof.
  unfold fill_defaults.
  destruct (truthy (obj_get msg "facility")), (truthy (obj_get msg "timestamp")),
    (truthy (obj_get msg "host")), (truthy (obj_get msg "version"));
    cbn [negb]; rewrite ?set_property_plain by discriminate; reflexivity.
Qed.

Lemma fill_short_message_get (json : JsObject) (k : string) :
  obj_get (own (fill_short_message json)) k =
  if (String.eqb "short_message" k && negb (truthy (json_get json "short_message")))%bool
  then VStr "Gelf Shortmessage"
  else obj_get (own json) k.
Proof.
  unfold fill_short_message.
  destruct (truthy (json_get json "short_message"));
    cbn [negb]; rewrite ?set_property_plain by discriminate; cbn [own proto];
    rewrite ?obj_get_set, ?andb_false_r, ?andb_true_r; reflexivity.
Qed.

(** With nothing inherited a read finds the own property or nothing. *)
Lemma json_get_plain (json : JsObject) (k : string) :
  proto json = ObjectPrototype -> json_get json k = obj_get (own json) k.
Proof.
  intros Hp. unfold json_get. rewrite Hp.
  destruct (obj_has (own json) k) eqn:E; [reflexivity|].
  cbn [inherited]. symmetry. now apply obj_get_absent.
Qed.

(** The envelope of a mapping that is not rejected. *)
Lemma sanitizeMsg_json_accepted (env : Env) (props : Obj) (st : State) :
  truthy (obj_get props "_id") = false ->
  sanitizeMsg_json env (Fields props) st =
  (st, Done (Some (own (fill_short_message
                          (fill_defaults env props
                             (Object_assign empty_object props)))))).
Proof.
  intros Hid. unfold sanitizeMsg_json. rewrite Hid. reflexivity.
Qed.

(** X10: a free-text event is never rejected and gets no defaults: its
    envelope has the one field [short_message], holding the text, or the
    placeholder 'Gelf Shortmessage' when the text is empty; nothing is
    reported. *)
Theorem X10_text_envelope (env : Env) (s : string) (st : State) :
  sanitizeMsg_json env (Text s) st =
    (st, Done (Some [("short_message"%string,
                      VStr (if is_empty s then "Gelf Shortmessage"%string else s))])) /\
  sanitizeMsg env (Text s) st =
    (st, Done (Some ("{" ++ quote "short_message" ++ ":" ++
                     quote (if is_empty s then "Gelf Shortmessage" else s) ++ "}")%string)).
Proof. destruct s; split; reflexivity. Qed.

(** X11: a mapping without an own [__proto__] key that is not rejected
    keeps what the caller gave: under every key that is not one of the five
    defaulted ones, and under those five whenever the caller's value is
    truthy, the envelope holds the caller's value. *)
Theorem X11_caller_fields_are_kept (env : Env) (props : Obj) (st : State)
    (k : string) :
  NoDup (map fst props) ->
  obj_has props "__proto__" = false ->
  truthy (obj_get props "_id") = false ->
  ~ In k defaulted_keys \/ truthy (obj_get props k) = true ->
  exists json,
    sanitizeMsg_json env (Fields props) st = (st, Done (Some json)) /\
    obj_get json k = obj_get props k.
Proof.
  intros Hnd Hproto Hid Hk.
  rewrite sanitizeMsg_json_accepted, Object_assign_copy by assumption.
  eexists. split; [reflexivity|].
  rewrite fill_short_message_get, json_get_plain by apply fill_defaults_proto.
  rewrite !fill_defaults_get. cbn [own].
  destruct Hk as [Hnot|Htruthy].
  - unfold defaulted_keys in Hnot. cbn [In] in Hnot.
    destruct (String.eqb_spec "short_message" k); [tauto|].
    destruct (String.eqb_spec "facility" k); [tauto|].
    destruct (String.eqb_spec "timestamp" k); [tauto|].
    destruct (String.eqb_spec "host" k); [tauto|].
    destruct (String.eqb_spec "version" k); [tauto|].
    reflexivity.
  - destruct (String.eqb_spec "short_message" k) as [<-|_].
    + cbn [String.eqb Ascii.eqb Bool.eqb andb] in *. now rewrite Htruthy.
    + cbn [andb].
      destruct (String.eqb_spec "facility" k) as [<-|_]; [now rewrite Htruthy|].
      destruct (String.eqb_spec "timestamp" k) as [<-|_]; [now rewrite Htruthy|].
      destruct (String.eqb_spec "host" k) as [<-|_]; [now rewrite Htruthy|].
      destruct (String.eqb_spec "version" k) as [<-|_]; [now rewrite Htruthy|].
      reflexivity.
Qed.

Lemma X11_caller_fields_are_kept_witness :
  exists json,
    sanitizeMsg_json (sample_env codec_ok)
      (Fields [("host"%string, VStr "web-1"); ("level"%string, VNum (integer 0))])
      {| trace := []; network := [] |} =
      ({| trace := []; network := [] |}, Done (Some json)) /\
    obj_get json "level" =
    obj_get [("host"%string, VStr "web-1"); ("level"%string, VNum (integer 0))] "level".
Proof.
  apply X11_caller_fields_are_kept.
  - repeat constructor; simpl; intuition discriminate.
  - reflexivity.
  - reflexivity.
  - left. simpl. intuition discriminate.
Defined.

(** X12: the envelope of a mapping without an own [__proto__] key that is
    not rejected always has a truthy version, facility and short_message,
    and no truthy [_id]; its host is truthy when the machine has a name and
    its timestamp when the clock does not read 0. *)
Theorem X12_envelope_fields_present (env : Env) (props : Obj) (st : State) :
  NoDup (map fst props) ->
  obj_has props "__proto__" = false ->
  truthy (obj_get props "_id") = false ->
  exists json,
    sanitizeMsg_json env (Fields props) st = (st, Done (Some json)) /\
    truthy (obj_get json "version") = true /\
    truthy (obj_get json "facility") = true /\
    truthy (obj_get json "short_message") = true /\
    truthy (obj_get json "_id") = false /\
    (hostname env <> EmptyString -> truthy (obj_get json "host") = true) /\
    (clock env <> 0 -> truthy (obj_get json "timestamp") = true).
Proof.
  intros Hnd Hproto Hid.
  rewrite sanitizeMsg_json_accepted, Object_assign_copy by assumption.
  eexists. split; [reflexivity|].
  rewrite !fill_short_message_get, json_get_plain by apply fill_defaults_proto.
  rewrite !fill_defaults_get.
  cbn [String.eqb Ascii.eqb Bool.eqb andb own].
  repeat split.
  - destruct (truthy (obj_get props "version")) eqn:E; [exact E|reflexivity].
  - destruct (truthy (obj_get props "facility")) eqn:E; [exact E|reflexivity].
  - destruct (truthy (obj_get props "short_message")) eqn:E; [exact E|reflexivity].
  - exact Hid.
  - intros Hhost.
    destruct (truthy (obj_get props "host")) eqn:E; [exact E|].
    cbn [negb truthy]. destruct (hostname env); [congruence|reflexivity].
  - intros Hclock.
    destruct (truthy (obj_get props "timestamp")) eqn:E; [exact E|].
    cbn [negb truthy]. apply negb_true_iff, Z.eqb_neq. exact Hclock.
Qed.

Lemma X12_envelope_fields_present_witness :
  exists json,
    sanitizeMsg_json (sample_env codec_ok) event_with_zero_timestamp
      {| trace := []; network := [] |} =
      ({| trace := []; network := [] |}, Done (Some json)) /\
    truthy (obj_get json "version") = true /\
    truthy (obj_get json "facility") = true /\
    truthy (obj_get json "short_message") = true /\
    truthy (obj_get json "_id") = false /\
    (hostname (sample_env codec_ok) <> EmptyString -> truthy (obj_get json "host") = true) /\
    (clock (sample_env codec_ok) <> 0 -> truthy (obj_get json "timestamp") = true).
Proof.
  apply X12_envelope_fields_present.
  - repeat constructor; simpl; intuition discriminate.
  - reflexivity.
  - reflexivity.
Defined.

(** X13: when the mapping has no own [__proto__] key and brings none of the
    five defaulted fields, the envelope is the caller's fields in the
    caller's order followed by version, host, timestamp, facility and
    short_message, in this order. *)
Theorem X13_defaults_come_last (env : Env) (props : Obj) (st : State) :
  NoDup (map fst props) ->
  obj_has props "__proto__" = false ->
  truthy (obj_get props "_id") = false ->
  (forall k, In k defaulted_keys -> obj_has props k = false) ->
  sanitizeMsg_json env (Fields props) st =
  (st, Done (Some (props ++
                   [("version"%string, VStr "1.0");
                    ("host"%string, VStr (hostname env));
                    ("timestamp"%string, VNum (Fixed3 (clock env)));
                    ("facility"%string, VStr "node.js");
                    ("short_message"%string, VStr "Gelf Shortmessage")]))).
Proof.
  intros Hnd Hproto Hid Habsent.
  assert (Hv : obj_has props "version" = false) by (apply Habsent; simpl; tauto).
  assert (Hh : obj_has props "host" = false) by (apply Habsent; simpl; tauto).
  assert (Ht : obj_has props "timestamp" = false) by (apply Habsent; simpl; tauto).
  assert (Hf : obj_has props "facility" = false) by (apply Habsent; simpl; tauto).
  assert (Hs : obj_has props "short_message" = false) by (apply Habsent; simpl; tauto).
  rewrite sanitizeMsg_json_accepted, Object_assign_copy by assumption.
  unfold fill_short_message.
  rewrite json_get_plain by apply fill_defaults_proto.
  unfold fill_defaults.
  rewrite !(obj_get_absent props) by assumption. cbn [truthy negb].
  rewrite !set_property_plain by discriminate. cbn [own proto].
  rewrite (obj_set_fresh props) by assumption.
  rewrite (obj_set_fresh _ "host") by (rewrite obj_has_app, Hh; reflexivity).
  rewrite (obj_set_fresh _ "timestamp") by (rewrite !obj_has_app, Ht; reflexivity).
  rewrite (obj_set_fresh _ "facility") by (rewrite !obj_has_app, Hf; reflexivity).
  rewrite obj_get_absent by (rewrite !obj_has_app, Hs; reflexivity).
  cbn [truthy negb own].
  rewrite obj_set_fresh by (rewrite !obj_has_app, Hs; reflexivity).
  rewrite <- !app_assoc. reflexivity.
Qed.

Lemma X13_defaults_come_last_witness :
  sanitizeMsg_json (sample_env codec_ok)
    (Fields [("level"%string, VNum (integer 3)); ("_user"%string, VStr "ann")])
    {| trace := []; network := [] |} =
  ({| trace := []; network := [] |},
   Done (Some ([("level"%string, VNum (integer 3)); ("_user"%string, VStr "ann")] ++
               [("version"%string, VStr "1.0");
                ("host"%string, VStr (hostname (sample_env codec_ok)));
                ("timestamp"%string, VNum (Fixed3 (clock (sample_env codec_ok))));
                ("facility"%string, VStr "node.js");
                ("short_message"%string, VStr "Gelf Shortmessage")]))).
Proof.
  apply X13_defaults_come_last.
  - repeat constructor; simpl; intuition discriminate.
  - reflexivity.
  - reflexivity.
  - intros k Hk. simpl in Hk.
    repeat (destruct Hk as [<-|Hk]; [reflexivity|]). contradiction.
Defined.

Lemma fill_short_message_has (json : JsObject) (k : string) :
  k <> "short_message"%string ->
  obj_has (own (fill_short_message json)) k = obj_has (own json) k.
Proof.
  intros Hk. unfold fill_short_message.
  destruct (truthy (json_get json "short_message")); cbn [negb]; [reflexivity|].
  rewrite set_property_plain by discriminate. cbn [own].
  rewrite obj_has_set.
  destruct (String.eqb_spec "short_message" k) as [<-|_]; [congruence|reflexivity].
Qed.

(** X22: an own [__proto__] key of the event is never written into the
    envelope: [Object.assign] hands it to the prototype accessor, so the
    envelope of a mapping that is not rejected has no field of that name. *)
Theorem X22_proto_key_is_not_copied (env : Env) (props : Obj) (st : State) :
  NoDup (map fst props) ->
  truthy (obj_get props "_id") = false ->
  exists json,
    sanitizeMsg_json env (Fields props) st = (st, Done (Some json)) /\
    obj_has json "__proto__" = false.
Proof.
  intros Hnd Hid. rewrite sanitizeMsg_json_accepted by assumption.
  eexists. split; [reflexivity|].
  rewrite fill_short_message_has by discriminate.
  rewrite fill_defaults_has by (unfold defaulted_keys; simpl; intuition discriminate).
  apply Object_assign_own_proto; [exact Hnd|reflexivity|now left].
Qed.

Lemma X22_proto_key_is_not_copied_witness :
  exists json,
    sanitizeMsg_json (sample_env codec_ok)
      (Fields [("__proto__"%string, VObj [("short_message"%string, VStr "inherited")]);
               ("level"%string, VNum (integer 1))])
      {| trace := []; network := [] |} =
      ({| trace := []; network := [] |}, Done (Some json)) /\
    obj_has json "__proto__" = false.
Proof.
  apply X22_proto_key_is_not_copied.
  - repeat constructor; simpl; intuition discriminate.
  - reflexivity.
Defined.

(** X14: a rejected mapping on an instance nobody listens to for errors:
    the ['gelf.log'] handler ends with the exception '_id is not allowed';
    nothing is compressed or sent and the callback is not called. *)
Theorem X14_rejection_throws_without_listener (env : Env) (props : Obj)
    (cb : option Callback) (st : State) :
  truthy (obj_get props "_id") = true ->
  errorListeners env = false ->
  on_gelf_log env (Some (Fields props)) cb st =
  (st, Thrown (Error "_id is not allowed")).
Proof.
  intros Hid Hl.
  unfold on_gelf_log, sanitizeMsg, sanitizeMsg_json, bind, emitError, throw.
  cbn [or_default]. rewrite Hid, Hl. reflexivity.
Qed.

Lemma X14_rejection_throws_without_listener_witness :
  on_gelf_log (unsubscribed (sample_env codec_ok)) (Some event_with_text_id)
    (Some silent_callback) {| trace := []; network := [] |} =
  ({| trace := []; network := [] |}, Thrown (Error "_id is not allowed")).
Proof.
  apply X14_rejection_throws_without_listener; reflexivity.
Defined.

(** X15: a rejected mapping on an instance with an error subscriber: the
    error is published, and then the ['gelf.log'] handler does what the
    ['gelf.message'] handler does with the empty string: it compresses and
    sends it. *)
Theorem X15_rejection_sends_empty_message (env : Env) (props : Obj)
    (cb : option Callback) (st : State) :
  truthy (obj_get props "_id") = true ->
  errorListeners env = true ->
  on_gelf_log env (Some (Fields props)) cb st =
  on_gelf_message env EmptyString cb
    {| trace := trace st ++ [EvError (Error "_id is not allowed")];
       network := network st |}.
Proof.
  intros Hid Hl.
  unfold on_gelf_log, on_gelf_message, sanitizeMsg, sanitizeMsg_json, bind, emitError, log, ret.
  cbn [or_default]. rewrite Hid, Hl. reflexivity.
Qed.

Lemma X15_rejection_sends_empty_message_witness :
  on_gelf_log (sample_env codec_ok) (Some event_with_text_id)
    (Some silent_callback) {| trace := []; network := [] |} =
  on_gelf_message (sample_env codec_ok) EmptyString (Some silent_callback)
    {| trace := [] ++ [EvError (Error "_id is not allowed")]; network := [] |}.
Proof.
  apply (X15_rejection_sends_empty_message (sample_env codec_ok)
           [("_id"%string, VStr "abc"); ("short_message"%string, VStr "disk full")]
           (Some silent_callback) {| trace := []; network := [] |});
    reflexivity.
Defined.

(** ** More on the transport *)

Lemma bind_false_then_maybe (m k : M unit) (st : State) :
  bind (bind m (fun _ => ret false)) (fun r : bool => if r then k else ret tt) st = m st.
Proof. unfold bind, ret. destruct (m st) as [st' [[]| |]]; reflexivity. Qed.

Lemma bind_false_then_done (m : M unit) (st : State) :
  bind (bind m (fun _ => ret false)) (fun _ : bool => ret tt) st = m st.
Proof. unfold bind, ret. destruct (m st) as [st' [[]| |]]; reflexivity. Qed.

(** A series of send tasks hands its callback the error that stopped it,
    after exactly the sends [series_progress] lists. *)
Lemma async_series_send_tasks (env : Env) (final : option JsError -> M unit)
    (ps : list Buffer) :
  forall st,
    async_series (map (send_task env) ps) final st =
    let '(sent, net', r) := series_progress ps (network st) in
    final r {| trace := trace st ++ map (send_event env) sent; network := net' |}.
Proof.
  induction ps as [|p ps IH]; intros st.
  - destruct st as [t net]. simpl. now rewrite app_nil_r.
  - cbn [map async_series series_progress]. unfold send_task at 1, client_send.
    destruct (hd None (network st)) as [e|].
    + rewrite bind_false_then_maybe. reflexivity.
    + rewrite bind_false_then_done, IH. cbn [trace network].
      destruct (series_progress ps (tl (network st))) as [[sent net'] r].
      cbn [map]. rewrite <- app_assoc. reflexivity.
Qed.

Lemma send_progress (env : Env) (msg : Message) (cb : Callback) (st : State) :
  send env msg cb st =
  let '(sent, net', r) := series_progress (datagrams msg) (network st) in
  match r with
  | Some e => bind (cb (Some e)) (fun r => if r then emitError env e else ret tt)
  | None => bind (cb None) (fun _ => ret tt)
  end {| trace := trace st ++ map (send_event env) sent; network := net' |}.
Proof.
  unfold send. rewrite async_series_send_tasks.
  destruct (series_progress (datagrams msg) (network st)) as [[sent net'] [e|]];
    reflexivity.
Qed.

Lemma series_progress_all_ok (ps : list Buffer) :
  forall net, Forall (eq None) net ->
    series_progress ps net = (ps, skipn (length ps) net, None).
Proof.
  induction ps as [|p ps IH]; intros net Hnet; cbn [series_progress length skipn].
  - reflexivity.
  - destruct Hnet as [|x net <- Hnet]; cbn [hd tl].
    + rewrite IH by constructor. now rewrite skipn_nil.
    + now rewrite IH.
Qed.

Lemma series_progress_first_failure (k : nat) :
  forall (ps : list Buffer) (e : JsError) (rest : list (option JsError)),
    (k < length ps)%nat ->
    series_progress ps (repeat None k ++ Some e :: rest) =
    (firstn (S k) ps, rest, Some e).
Proof.
  induction k as [|k IH]; intros [|p ps] e rest Hk; simpl in Hk; try lia.
  - reflexivity.
  - cbn [repeat app series_progress hd tl]. rewrite IH by lia. reflexivity.
Qed.

(** What was sent is always a prefix of the datagrams, in their order,
    and all of them when no send failed. *)
Lemma series_progress_prefix (ps : list Buffer) :
  forall net, exists k,
    fst (fst (series_progress ps net)) = firstn k ps /\
    (snd (series_progress ps net) = None -> fst (fst (series_progress ps net)) = ps).
Proof.
  induction ps as [|p ps IH]; intros net; cbn [series_progress].
  - exists 0%nat. split; reflexivity.
  - destruct (hd None net) as [e|].
    + exists 1%nat. split; [reflexivity|discriminate].
    + destruct (IH (tl net)) as (k & Hk & Hall).
      destruct (series_progress ps (tl net)) as [[sent net'] r].
      cbn [fst snd] in *. exists (S k). split.
      * cbn [firstn]. now rewrite Hk.
      * intros Hr. now rewrite Hall.
Qed.

Lemma sends_app (t t' : list Event) : sends (t ++ t') = sends t ++ sends t'.
Proof. apply flat_map_app. Qed.

Lemma callbacks_app (t t' : list Event) :
  callbacks (t ++ t') = callbacks t ++ callbacks t'.
Proof. apply flat_map_app. Qed.

Lemma errors_app (t t' : list Event) : errors (t ++ t') = errors t ++ errors t'.
Proof. apply flat_map_app. Qed.

Lemma sends_of_send_events (env : Env) (ps : list Buffer) :
  sends (map (send_event env) ps) = ps /\
  callbacks (map (send_event env) ps) = [] /\
  errors (map (send_event env) ps) = [].
Proof.
  induction ps as [|p ps (IHs & IHc & IHe)]; simpl.
  - repeat split.
  - rewrite IHs. repeat split; assumption.
Qed.

(** X16: when every send succeeds, the datagrams of a message are handed
    to the socket one by one in their order, each to the configured port and
    host, and then the completion callback is called once, with no error;
    nothing is published on the error channel. *)
Theorem X16_send_success (env : Env) (msg : Message)
    (result : option JsError -> bool) (net : list (option JsError)) :
  Forall (eq None) net ->
  run (send env msg (caller_callback result)) net =
  ({| trace := map (send_event env) (datagrams msg) ++ [EvCallback None];
      network := skipn (length (datagrams msg)) net |}, Done tt).
Proof.
  intros Hnet. unfold run. rewrite send_progress. cbn [network trace].
  rewrite series_progress_all_ok by exact Hnet. reflexivity.
Qed.

Lemma X16_send_success_witness :
  run (send (sample_env codec_ok) (Packets [[x01]; [x02]; [x03]])
         (caller_callback (fun _ => true))) [None; None; None; None] =
  ({| trace := map (send_event (sample_env codec_ok))
                 (datagrams (Packets [[x01]; [x02]; [x03]])) ++ [EvCallback None];
      network := skipn (length (datagrams (Packets [[x01]; [x02]; [x03]])))
                   [None; None; None; None] |}, Done tt).
Proof.
  apply X16_send_success. repeat constructor.
Defined.

(** X17: when the send of datagram number [k] is the first to fail, the
    datagrams up to and including number [k] have been handed to the socket
    and no later one is; the callback is called once with the error; the
    error is published only if what the callback returned is truthy, and
    thrown instead when then nobody listens. *)
Theorem X17_send_first_failure (env : Env) (msg : Message)
    (result : option JsError -> bool) (k : nat) (e : JsError)
    (rest : list (option JsError)) :
  (k < length (datagrams msg))%nat ->
  run (send env msg (caller_callback result)) (repeat None k ++ Some e :: rest) =
  ({| trace := map (send_event env) (firstn (S k) (datagrams msg)) ++
               EvCallback (Some e) ::
               (if (result (Some e) && errorListeners env)%bool then [EvError e] else []);
      network := rest |},
   if (result (Some e) && negb (errorListeners env))%bool then Thrown e else Done tt).
Proof.
  intros Hk. unfold run. rewrite send_progress. cbn [network trace].
  rewrite series_progress_first_failure by exact Hk.
  unfold caller_callback, bind, log, ret, emitError, throw. cbn [trace network app].
  destruct (result (Some e)); [destruct (errorListeners env)|];
    cbn [andb negb]; unfold log; cbn [trace network];
    rewrite <- ?app_assoc; reflexivity.
Qed.

Lemma X17_send_first_failure_witness :
  run (send (sample_env codec_ok) (Packets [[x01]; [x02]; [x03]; [x04]])
         (caller_callback (fun _ => true)))
      (repeat None 2 ++ Some (Error "send EPERM") :: [None]) =
  ({| trace := map (send_event (sample_env codec_ok))
                 (firstn 3 (datagrams (Packets [[x01]; [x02]; [x03]; [x04]]))) ++
               EvCallback (Some (Error "send EPERM")) ::
               (if ((fun _ : option JsError => true) (Some (Error "send EPERM")) &&
                    errorListeners (sample_env codec_ok))%bool
                then [EvError (Error "send EPERM")] else []);
      network := [None] |},
   if ((fun _ : option JsError => true) (Some (Error "send EPERM")) &&
       negb (errorListeners (sample_env codec_ok)))%bool
   then Thrown (Error "send EPERM") else Done tt).
Proof.
  apply (X17_send_first_failure (sample_env codec_ok)
           (Packets [[x01]; [x02]; [x03]; [x04]]) (fun _ => true) 2).
  simpl. lia.
Defined.

(** X18: whatever the network does, a call of [send] calls the completion
    callback exactly once, publishes at most one error, and what it has
    handed to the socket is a prefix of the message's datagrams in their
    order. *)
Theorem X18_send_calls_back_once (env : Env) (msg : Message)
    (result : option JsError -> bool) (net : list (option JsError)) :
  length (callbacks (trace (fst (run (send env msg (caller_callback result)) net)))) = 1%nat /\
  (length (errors (trace (fst (run (send env msg (caller_callback result)) net)))) <= 1)%nat /\
  exists k,
    sends (trace (fst (run (send env msg (caller_callback result)) net))) =
    firstn k (datagrams msg).
Proof.
  unfold run. rewrite send_progress. cbn [network trace app].
  destruct (series_progress_prefix (datagrams msg) net) as (k & Hk & _).
  destruct (series_progress (datagrams msg) net) as [[sent net'] r].
  cbn [fst snd] in Hk. subst sent.
  destruct (sends_of_send_events env (firstn k (datagrams msg))) as (Hs & Hc & He).
  unfold caller_callback, bind, log, ret, emitError, throw. cbn [trace network].
  destruct r as [e|]; [destruct (result (Some e)); [destruct (errorListeners env)|]|];
    unfold log; cbn [fst trace network];
    rewrite ?sends_app, ?callbacks_app, ?errors_app, Hs, Hc, He;
    (split; [reflexivity|split; [simpl; lia|exists k; simpl; now rewrite ?app_nil_r]]).
Qed.

(** ** The pipeline from text to datagrams *)

(** X19: a message whose compressed form fits the limit of the connection
    kind (or whose kind has no limit) leaves as one datagram, the compressed
    bytes themselves, and the callback is then told of success. *)
Theorem X19_small_message_is_one_datagram (env : Env) (msg : string)
    (buf : Buffer) (result : option JsError -> bool)
    (net : list (option JsError)) :
  deflate env msg = inr buf ->
  (forall limit, chunk_limit (config env) = Some limit ->
                 Z.of_nat (length buf) <= limit) ->
  hd None net = None ->
  run (on_gelf_message env msg (Some (caller_callback result))) net =
  ({| trace := [send_event env buf; EvCallback None]; network := tl net |}, Done tt).
Proof.
  intros Hcodec Hfits Hnet.
  assert (Hsingle : maybeChunkMessage (config env) (random env) (loopFuel env) buf =
                    Some (Single buf)).
  { destruct (chunk_limit (config env)) as [limit|] eqn:Hlimit.
    - unfold chunk_limit in Hlimit. unfold maybeChunkMessage.
      specialize (Hfits limit).
      destruct (String.eqb (connection (config env)) "wan") eqn:Ewan.
      + injection Hlimit as Hl. rewrite Hl in *.
        rewrite (proj2 (Z.ltb_ge _ _) (Hfits eq_refl)). cbn [andb].
        destruct (String.eqb (connection (config env)) "lan") eqn:Elan; [|reflexivity].
        apply String.eqb_eq in Ewan, Elan. congruence.
      + destruct (String.eqb (connection (config env)) "lan"); [|discriminate].
        injection Hlimit as Hl. rewrite Hl in *.
        rewrite (proj2 (Z.ltb_ge _ _) (Hfits eq_refl)). reflexivity.
    - unfold chunk_limit in Hlimit. unfold maybeChunkMessage.
      destruct (String.eqb (connection (config env)) "wan"); [discriminate|].
      destruct (String.eqb (connection (config env)) "lan"); [discriminate|].
      reflexivity. }
  unfold run, on_gelf_message, sendMessage, compress. cbn [or_default].
  rewrite Hcodec, Hsingle, send_progress. cbn [datagrams series_progress network trace].
  rewrite Hnet. reflexivity.
Qed.

Lemma X19_small_message_is_one_datagram_witness :
  run (on_gelf_message (sample_env codec_ok) "disk full"
         (Some (caller_callback (fun _ => false)))) [None] =
  ({| trace := [send_event (sample_env codec_ok) deflate_of_empty; EvCallback None];
      network := tl [None] |}, Done tt).
Proof.
  apply X19_small_message_is_one_datagram.
  - reflexivity.
  - intros limit Hlimit. injection Hlimit as <-. simpl. lia.
  - reflexivity.
Defined.

(** X20: when the codec fails, [sendMessage] ends with a [TypeError]
    thrown while reading the length of the missing buffer: nothing is sent,
    the caller's callback is never called and the codec's error is never
    published. *)
Theorem X20_codec_failure_throws (env : Env) (msg : string) (e : JsError)
    (cb : Callback) (st : State) :
  deflate env msg = inl e ->
  sendMessage env msg cb st =
  (st, Thrown (TypeError "Cannot read properties of undefined (reading 'length')")).
Proof.
  intros Hcodec. unfold sendMessage, compress, bind, throw.
  rewrite Hcodec. reflexivity.
Qed.

Lemma X20_codec_failure_throws_witness :
  sendMessage (sample_env codec_failing) "disk full" silent_callback
    {| trace := []; network := [] |} =
  ({| trace := []; network := [] |},
   Thrown (TypeError "Cannot read properties of undefined (reading 'length')")).
Proof.
  apply (X20_codec_failure_throws _ _ (Error "deflate failed")). reflexivity.
Defined.

(** X21: a message whose compressed form exceeds the limit, on a network
    where every send succeeds: ceil(length / limit) datagrams are sent in
    order, dropping five bytes from each and concatenating gives the
    compressed bytes back, and the callback is then told of success. *)
Theorem X21_large_message_end_to_end (env : Env) (msg : string) (buf : Buffer)
    (limit : Z) (result : option JsError -> bool) (net : list (option JsError)) :
  deflate env msg = inr buf ->
  chunk_limit (config env) = Some limit ->
  0 < limit < Z.of_nat (length buf) ->
  Z.of_nat (length buf) + limit <= limit * Z.of_nat (loopFuel env) ->
  Forall (eq None) net ->
  exists packets,
    run (on_gelf_message env msg (Some (caller_callback result))) net =
      ({| trace := map (send_event env) packets ++ [EvCallback None];
          network := skipn (length packets) net |}, Done tt) /\
    reassemble 5 packets = buf /\
    Z.of_nat (length packets) = (Z.of_nat (length buf) + limit - 1) / limit.
Proof.
  intros Hcodec Hlimit [Hpos Hlong] Hfuel Hnet.
  destruct (getChunks_loop_windows (loopFuel env) buf limit 0 [] Hpos (Z.le_refl 0))
    as (chunks & Hrun & Hcount & _).
  { rewrite Z.sub_0_r, Z.max_r by lia. exact Hfuel. }
  rewrite Z.sub_0_r, Z.max_r in Hcount by lia.
  destruct (getChunks_spec (loopFuel env) buf limit Hpos Hfuel)
    as (chunks' & Hrun' & Hcat & _).
  unfold getChunks in Hrun'. rewrite Hrun in Hrun'. injection Hrun' as <-.
  exists (createPackets (random env) chunks). split; [|split].
  - unfold run, on_gelf_message, sendMessage, compress. cbn [or_default].
    rewrite Hcodec.
    rewrite (maybeChunkMessage_over_limit _ _ _ _ _ Hlimit Hlong).
    unfold getChunks. rewrite Hrun. cbn [option_map].
    rewrite send_progress. cbn [datagrams network trace].
    rewrite series_progress_all_ok by exact Hnet. reflexivity.
  - rewrite reassemble_createPackets, Hcat. apply Buffer_from_bytes.
  - rewrite createPackets_length. exact Hcount.
Qed.

Lemma X21_large_message_end_to_end_witness :
  exists packets,
    run (on_gelf_message (sample_env (codec_of_size 1421)) "disk full"
           (Some (caller_callback (fun _ => false)))) [] =
      ({| trace := map (send_event (sample_env (codec_of_size 1421))) packets ++
                   [EvCallback None];
          network := skipn (length packets) [] |}, Done tt) /\
    reassemble 5 packets = payload_of 1421 /\
    Z.of_nat (length packets) = (Z.of_nat (length (payload_of 1421)) + 1420 - 1) / 1420.
Proof.
  apply (X21_large_message_end_to_end (sample_env (codec_of_size 1421)) "disk full"
           (payload_of 1421) 1420 (fun _ => false) []).
  - reflexivity.
  - reflexivity.
  - unfold payload_of. rewrite repeat_length. lia.
  - unfold payload_of. rewrite repeat_length. simpl. lia.
  - constructor.
Defined.
